(** * Airtable change detector: the recipe execution engine of [app.py]

    A shallow embedding of [execute_recipe], [send_webhook],
    [Automation.__init__] and [RecipeManager] and the properties of the
    polling loop, the trigger evaluation and the manager's bookkeeping. *)

From Stdlib Require Import ZArith Ascii String List Bool Lia.
From stdpp Require Import base decidable option gmap strings list.

(* stdpp's solvers clear hypotheses that may already be gone *)
Set Warnings "-clear-no-such-hyp".

Local Open Scope Z_scope.
Local Open Scope string_scope.

(** ** Python values found in an Airtable field mapping *)

#[warnings="-register-all"]
Inductive pyval :=
| VNone
| VBool (b : bool)
| VNum (z : Z)
| VStr (s : string)
| VList (l : list pyval).

(** Python truthiness, as tested by [if record_time_str:]. *)
Definition truthy (v : pyval) : bool :=
  match v with
  | VNone => false
  | VBool b => b
  | VNum z => negb (Z.eqb z 0)
  | VStr s => negb (String.eqb s "")
  | VList l => match l with [] => false | _ => true end
  end.

(** A record as returned by [airtable.get_all()]: [record['id']] and
    [record['fields']]. *)
Record record := mk_record {
  record_id : string;
  fields : gmap string pyval
}.

(** [needle in hay] on Python strings. *)
Fixpoint contains (needle hay : string) : bool :=
  String.prefix needle hay ||
  match hay with
  | EmptyString => false
  | String _ hay' => contains needle hay'
  end.

(** ** The [Automation] class *)

Record Automation := mk_Automation {
  trigger : option string;
  action : option string;
  webhook_url : option string;
  base_key : option string;
  table_name : option string;
  api_key : option string;
  field_name : option string;
  text_to_find : option string;
  name : option string;
  last_execution_time : option Z;
  (* attributes attached by [add_recipe] / [execute_recipe] before any read *)
  is_running : bool;
  is_thread_running : bool
}.

Definition TRIGGERS : list string := ["airtable_record_updated"; "find_record"].
Definition ACTIONS : list string := ["send_webhook"].

(** Exceptions that the modelled code can raise. *)
Inductive exn :=
| FetchError      (* [airtable.get_all()] raised *)
| PostError       (* [requests.post] raised *)
| ValueError      (* [datetime.fromisoformat] on a malformed string *)
| TypeError       (* [fromisoformat] on a non-string, [None in str] *)
| KeyError        (* [record['fields'][k]] for an absent key *)
| RuntimeError    (* [Thread.start] on a thread already started *)
| ConfigurationError.  (* named by the design, raised nowhere in the code *)

(** [Automation.__init__]: stores its arguments, validates nothing. *)
Definition Automation_init
    (trigger action webhook_url base_key table_name api_key
     field_name text_to_find name : option string) : exn + Automation :=
  inr {| trigger := trigger; action := action; webhook_url := webhook_url;
         base_key := base_key; table_name := table_name; api_key := api_key;
         field_name := field_name; text_to_find := text_to_find; name := name;
         last_execution_time := None;
         is_running := false; is_thread_running := false |}.

Definition set_is_running (b : bool) (r : Automation) : Automation :=
  {| trigger := trigger r; action := action r; webhook_url := webhook_url r;
     base_key := base_key r; table_name := table_name r; api_key := api_key r;
     field_name := field_name r; text_to_find := text_to_find r; name := name r;
     last_execution_time := last_execution_time r;
     is_running := b; is_thread_running := is_thread_running r |}.

Definition set_is_thread_running (b : bool) (r : Automation) : Automation :=
  {| trigger := trigger r; action := action r; webhook_url := webhook_url r;
     base_key := base_key r; table_name := table_name r; api_key := api_key r;
     field_name := field_name r; text_to_find := text_to_find r; name := name r;
     last_execution_time := last_execution_time r;
     is_running := is_running r; is_thread_running := b |}.

Definition set_last_execution_time (t : option Z) (r : Automation) : Automation :=
  {| trigger := trigger r; action := action r; webhook_url := webhook_url r;
     base_key := base_key r; table_name := table_name r; api_key := api_key r;
     field_name := field_name r; text_to_find := text_to_find r; name := name r;
     last_execution_time := t;
     is_running := is_running r; is_thread_running := is_thread_running r |}.

(** ** Observable events of a runner thread *)

Inductive event :=
| Fetched (n : nat)                           (* "Fetched n records" *)
| Processing (rid : string)                   (* "Processing record:" *)
| Skipping (rid : string)                     (* "Record already processed" *)
| RecordTime (t : Z)                          (* "Record Time:" *)
| DetectedUpdated (rid : string)              (* "Detected updated record" *)
| DetectedText (rid : string)                 (* "Detected record ... with text" *)
| Post (url : option string) (data : record)  (* the call [requests.post] *)
| WebhookSent (recipe_name : option string) (status_code : Z)
| Sleep (seconds : Z).                        (* [time.sleep(10)] *)

(** ** State of one runner thread

    [recipe] is the object shared with the manager; the other fields are
    the locals of [execute_recipe]. *)

Record world := mk_world {
  recipe : Automation;
  last_checked_time : Z;
  processed_records : gset string
}.

(** A computation of the runner either returns or raises; in both cases
    it leaves a state and the events it emitted. *)
Inductive result (A : Type) :=
| Ok (a : A) (w : world) (evs : list event)
| Raise (e : exn) (w : world) (evs : list event).
Arguments Ok {A} a w evs.
Arguments Raise {A} e w evs.

Definition events {A} (r : result A) : list event :=
  match r with Ok _ _ evs => evs | Raise _ _ evs => evs end.
Definition world_of {A} (r : result A) : world :=
  match r with Ok _ w _ => w | Raise _ w _ => w end.
Definition raised {A} (r : result A) : option exn :=
  match r with Ok _ _ _ => None | Raise e _ _ => Some e end.

Definition M (A : Type) : Type := world -> result A.

Definition ret {A} (a : A) : M A := fun w => Ok a w [].
Definition bind {A B} (m : M A) (k : A -> M B) : M B :=
  fun w => match m w with
           | Ok a w' evs =>
               match k a w' with
               | Ok b w'' evs' => Ok b w'' (evs ++ evs')
               | Raise e w'' evs' => Raise e w'' (evs ++ evs')
               end
           | Raise e w' evs => Raise e w' evs
           end.
Definition raise {A} (e : exn) : M A := fun w => Raise e w [].

Notation "'do' x <- m ; k" := (bind m (fun x => k))
  (at level 10, x name, m at level 100, k at level 200).
Notation "'exec' m ; k" := (bind m (fun _ => k))
  (at level 10, m at level 100, k at level 200).

Definition emit (e : event) : M unit := fun w => Ok tt w [e].
Definition get : M world := fun w => Ok w w [].
Definition update_recipe (f : Automation -> Automation) : M unit :=
  fun w => Ok tt (mk_world (f (recipe w)) (last_checked_time w)
                           (processed_records w)) [].
Definition add_processed (rid : string) : M unit :=
  fun w => Ok tt (mk_world (recipe w) (last_checked_time w)
                           ({[rid]} ∪ processed_records w)) [].

(** ** The external collaborators of one poll cycle

    [fetch] is the outcome of [airtable.get_all()] ([None]: it raised);
    [post r] the outcome of [requests.post] with payload [{"record": r}]
    ([None]: it raised, [Some c]: status code [c]); [stop_at = Some i] says
    that another thread assigns [recipe.is_running = False] just before
    the record of index [i] of the snapshot is processed (after the last
    record when [i] is past the end of the snapshot). *)

Record cycle_env := mk_env {
  fetch : option (list record);
  post : record -> option Z;
  stop_at : option nat
}.

Inductive flow := Continue | Break.

(** How a run over finitely many supplied cycles ends. *)
Inductive status :=
| Stopped               (* the loop broke out and line 156 ran *)
| Raised (e : exn)      (* an exception left [execute_recipe] *)
| Polling.              (* still in the loop, waiting for the next cycle *)

Record run := mk_run {
  run_status : status;
  run_world : world;
  run_trace : list event;
  run_cycles : nat       (* iterations of the loop completed *)
}.

(** A run that follows one completed iteration which emitted [evs]. *)
Definition after_cycle (evs : list event) (r : run) : run :=
  mk_run (run_status r) (run_world r) (evs ++ run_trace r) (S (run_cycles r)).

Section Runner.

(** [datetime.fromisoformat]: the naive wall-clock value of the parsed
    timestamp and its UTC offset if the string carries one; [None] when the
    string is rejected (ValueError). *)
Variable fromisoformat : string -> option (Z * option Z).

(** [datetime.fromisoformat(v).replace(tzinfo=None)]: the offset is dropped,
    the wall-clock fields are kept. *)
Definition parse_record_time (v : pyval) : M Z :=
  match v with
  | VStr s =>
      match fromisoformat s with
      | Some (wall, _) => ret wall
      | None => raise ValueError
      end
  | _ => raise TypeError
  end.

Definition send_webhook (post : record -> option Z)
    (url : option string) (data : record) (recipe_name : option string) : M Z :=
  exec emit (Post url data);
  match post data with
  | None => raise PostError
  | Some status_code =>
      exec emit (WebhookSent recipe_name status_code);
      ret status_code
  end.

Definition trigger_is (r : Automation) (tag : string) : bool :=
  bool_decide (trigger r = Some tag).

(** [recipe.field_name in record['fields']] *)
Definition field_name_in (r : Automation) (fs : gmap string pyval) : bool :=
  match field_name r with
  | Some f => bool_decide (is_Some (fs !! f))
  | None => false
  end.

(** [record['fields'][recipe.field_name]] *)
Definition getitem (fs : gmap string pyval) (k : option string) : M pyval :=
  match k with
  | Some f => match fs !! f with Some v => ret v | None => raise KeyError end
  | None => raise KeyError
  end.

(** [isinstance(field_value, str) and recipe.text_to_find in field_value] *)
Definition text_in (r : Automation) (field_value : pyval) : M bool :=
  match field_value with
  | VStr s =>
      match text_to_find r with
      | Some t => ret (contains t s)
      | None => raise TypeError
      end
  | _ => ret false
  end.

(** Lines 135-147: the trigger evaluation of a record not yet processed. *)
Definition evaluate_record (post : record -> option Z) (r : record) : M unit :=
  let record_time_str := default VNone (fields r !! "Last Modified") in
  if truthy record_time_str then
    do record_time <- parse_record_time record_time_str;
    exec emit (RecordTime record_time);
    do w <- get;
    let rcp := recipe w in
    if trigger_is rcp "airtable_record_updated"
       && (last_checked_time w <? record_time)%Z then
      exec emit (DetectedUpdated (record_id r));
      do _ <- send_webhook post (webhook_url rcp) r (name rcp);
      ret tt
    else if trigger_is rcp "find_record" && field_name_in rcp (fields r) then
      do field_value <- getitem (fields r) (field_name rcp);
      do found <- text_in rcp field_value;
      if found then
        exec emit (DetectedText (record_id r));
        do _ <- send_webhook post (webhook_url rcp) r (name rcp);
        ret tt
      else ret tt
    else ret tt
  else ret tt.

(** Lines 127-149: the body of [for record in records]. *)
Definition process_record (post : record -> option Z) (r : record) : M unit :=
  exec emit (Processing (record_id r));
  do w <- get;
  if bool_decide (record_id r ∈ processed_records w) then
    emit (Skipping (record_id r))
  else
    exec evaluate_record post r;
    add_processed (record_id r).

(** The write [recipe.is_running = False] of another thread. *)
Definition stop_hook (env : cycle_env) (i : nat) : M unit :=
  if bool_decide (stop_at env = Some i) then update_recipe (set_is_running false)
  else ret tt.

Definition stop_tail (env : cycle_env) (n : nat) : M unit :=
  match stop_at env with
  | Some i => if (n <=? i)%nat then update_recipe (set_is_running false) else ret tt
  | None => ret tt
  end.

Fixpoint for_records (env : cycle_env) (i : nat) (records : list record) : M unit :=
  match records with
  | [] => ret tt
  | r :: records' =>
      exec stop_hook env i;
      exec process_record (post env) r;
      for_records env (S i) records'
  end.

(** [airtable.get_all()] *)
Definition get_all (env : cycle_env) : M (list record) :=
  match fetch env with
  | Some rs => ret rs
  | None => raise FetchError
  end.

(** Lines 122-154: one iteration of [while True]. *)
Definition loop_body (env : cycle_env) : M flow :=
  do records <- get_all env;
  exec emit (Fetched (length records));
  exec for_records env 0 records;
  exec stop_tail env (length records);
  do w <- get;
  exec update_recipe (set_last_execution_time (Some (last_checked_time w)));
  do w <- get;
  if negb (is_running (recipe w)) then ret Break
  else exec emit (Sleep 10); ret Continue.

(** The [while True] loop over the supplied cycles, and line 156. *)
Fixpoint while_true (envs : list cycle_env) (w : world) : run :=
  match envs with
  | [] => mk_run Polling w [] 0
  | env :: envs' =>
      match loop_body env w with
      | Ok Continue w' evs => after_cycle evs (while_true envs' w')
      | Ok Break w' evs =>
          mk_run Stopped
                 (mk_world (set_is_running false (recipe w'))
                           (last_checked_time w') (processed_records w'))
                 evs 1
      | Raise e w' evs => mk_run (Raised e) w' evs 0
      end
  end.

(** Lines 113-119: the state in which the loop is entered. *)
Definition enter (rcp : Automation) (start_time : Z) : world :=
  let rcp := set_is_running true rcp in
  mk_world rcp (default start_time (last_execution_time rcp)) ∅.

(** [execute_recipe(recipe)], started at time [start_time]
    ([datetime.utcnow()]), over the cycles [envs]. *)
Definition execute_recipe (rcp : Automation) (start_time : Z)
    (envs : list cycle_env) : run :=
  while_true envs (enter rcp start_time).

End Runner.

(** ** [RecipeManager]

    [self.recipes] and [self.threads] are parallel lists: [add_recipe]
    appends to both, and the thread at index [i] was created with the recipe
    object at index [i] as its argument.  That object is shared between the
    manager and the thread; the model keeps it once, at index [i] of
    [recipes], where both sides read and write it. *)

Inductive thread :=
| Unstarted                                  (* created, [start] not called *)
| Entering                                   (* started, before line 113 *)
| Looping (lct : Z) (seen : gset string)     (* in the loop, with its locals *)
| Finished.                                  (* returned or died *)

Record RecipeManager := mk_manager {
  recipes : list Automation;
  threads : list thread
}.

Inductive message :=
| AllAlreadyRunning
| AlreadyRunning (name url : option string)
| StartedMsg (name url : option string)
| StatusLine (name url : option string) (label : string).

(** The outcome of a manager method: the manager as the call left it, the
    messages logged, and the exception that ended the call, if any. *)
Record outcome := mk_outcome {
  out_manager : RecipeManager;
  out_log : list message;
  out_exn : option exn
}.

Definition add_recipe (r : Automation) (m : RecipeManager) : RecipeManager :=
  let r := set_is_thread_running false (set_is_running false r) in
  mk_manager (recipes m ++ [r]) (threads m ++ [Unstarted]).

(** [Thread.start()]: allowed once per thread object. *)
Definition thread_start (t : thread) : option thread :=
  match t with
  | Unstarted => Some Entering
  | _ => None
  end.

(** Lines 175-182: the loop over [zip(self.threads, self.recipes)]. *)
Fixpoint start_each (ts : list thread) (rs : list Automation) : outcome :=
  match ts, rs with
  | t :: ts', r :: rs' =>
      if is_running r then
        let o := start_each ts' rs' in
        mk_outcome (mk_manager (r :: recipes (out_manager o))
                               (t :: threads (out_manager o)))
                   (AlreadyRunning (name r) (webhook_url r) :: out_log o)
                   (out_exn o)
      else
        match thread_start t with
        | None => mk_outcome (mk_manager rs ts) [] (Some RuntimeError)
        | Some t' =>
            let r' := set_is_thread_running true (set_is_running true r) in
            let o := start_each ts' rs' in
            mk_outcome (mk_manager (r' :: recipes (out_manager o))
                                   (t' :: threads (out_manager o)))
                       (StartedMsg (name r) (webhook_url r) :: out_log o)
                       (out_exn o)
        end
  | _, _ => mk_outcome (mk_manager rs ts) [] None
  end.

Definition start_all (m : RecipeManager) : outcome :=
  if forallb is_running (recipes m) then
    mk_outcome m [AllAlreadyRunning] None
  else start_each (threads m) (recipes m).

Definition status_label (r : Automation) : string :=
  if is_thread_running r then "running" else "stopped".

Definition log_status (m : RecipeManager) : list message :=
  map (fun r => StatusLine (name r) (webhook_url r) (status_label r)) (recipes m).

(** ** The whole program: the control thread and the runner threads *)

Inductive op :=
| Create (r : Automation)                    (* 'create': a new recipe is registered *)
| StartAll                                   (* 'start' *)
| Status                                     (* 'status' *)
| ThreadEnter (i : nat) (start_time : Z)     (* thread [i] runs lines 113-119 *)
| ThreadCycle (i : nat) (env : cycle_env)    (* thread [i] runs one iteration *)
| RequestStop (i : nat).                     (* [recipes[i].is_running = False] *)

Section Program.

Variable fromisoformat : string -> option (Z * option Z).

Definition thread_enter (i : nat) (start_time : Z) (m : RecipeManager)
    : RecipeManager :=
  match threads m !! i, recipes m !! i with
  | Some Entering, Some r =>
      let w := enter r start_time in
      mk_manager (<[i := recipe w]> (recipes m))
                 (<[i := Looping (last_checked_time w) (processed_records w)]>
                    (threads m))
  | _, _ => m
  end.

Definition thread_cycle (i : nat) (env : cycle_env) (m : RecipeManager)
    : RecipeManager :=
  match threads m !! i, recipes m !! i with
  | Some (Looping lct seen), Some r =>
      match loop_body fromisoformat env (mk_world r lct seen) with
      | Ok Continue w' _ =>
          mk_manager (<[i := recipe w']> (recipes m))
                     (<[i := Looping (last_checked_time w') (processed_records w')]>
                        (threads m))
      | Ok Break w' _ =>
          mk_manager (<[i := set_is_running false (recipe w')]> (recipes m))
                     (<[i := Finished]> (threads m))
      | Raise _ w' _ =>
          mk_manager (<[i := recipe w']> (recipes m))
                     (<[i := Finished]> (threads m))
      end
  | _, _ => m
  end.

Definition request_stop (i : nat) (m : RecipeManager) : RecipeManager :=
  match recipes m !! i with
  | Some r => mk_manager (<[i := set_is_running false r]> (recipes m)) (threads m)
  | None => m
  end.

Definition apply_op (m : RecipeManager) (o : op) : RecipeManager :=
  match o with
  | Create r => add_recipe r m
  | StartAll => out_manager (start_all m)
  | Status => m
  | ThreadEnter i start_time => thread_enter i start_time m
  | ThreadCycle i env => thread_cycle i env m
  | RequestStop i => request_stop i m
  end.

Definition apply_ops (m : RecipeManager) (os : list op) : RecipeManager :=
  fold_left apply_op os m.

End Program.

(** ** A parser to run the model on concrete timestamps

    [fromisoformat_basic] reads [YYYY-MM-DDTHH:MM:SS], optionally followed
    by an offset [+HH:MM] or [-HH:MM].  The wall-clock value is a numbering
    of the fields that preserves their lexicographic order, which is the
    order of naive [datetime] values; the offset is in minutes.  The
    properties below hold for every parser; this one instantiates them. *)

Definition digit (c : Ascii.ascii) : option Z :=
  let n := Z.of_nat (Ascii.nat_of_ascii c) in
  if (48 <=? n)%Z && (n <=? 57)%Z then Some (n - 48)%Z else None.

Fixpoint number (cs : list Ascii.ascii) (acc : Z) : option Z :=
  match cs with
  | [] => Some acc
  | c :: cs' => d ← digit c; number cs' (10 * acc + d)%Z
  end.

Definition digits_at (s : string) (pos len : nat) : option Z :=
  let sub := String.substring pos len s in
  if (String.length sub =? len)%nat
  then number (String.list_ascii_of_string sub) 0%Z else None.

Definition char_at (s : string) (pos : nat) (c : Ascii.ascii) : bool :=
  match String.get pos s with
  | Some d => Ascii.eqb c d
  | None => false
  end.

Definition wall_clock (y mo d h mi se : Z) : option Z :=
  if (1 <=? mo)%Z && (mo <=? 12)%Z && (1 <=? d)%Z && (d <=? 31)%Z
     && (h <? 24)%Z && (mi <? 60)%Z && (se <? 60)%Z
  then Some (((((y * 12 + (mo - 1)) * 31 + (d - 1)) * 24 + h) * 60 + mi) * 60 + se)%Z
  else None.

Definition utc_offset (s : string) : option (option Z) :=
  if (String.length s =? 19)%nat then Some None
  else if (String.length s =? 25)%nat && char_at s 22 ":"%char then
    hh ← digits_at s 20 2; mm ← digits_at s 23 2;
    if char_at s 19 "+"%char then Some (Some (hh * 60 + mm)%Z)
    else if char_at s 19 "-"%char then Some (Some (- (hh * 60 + mm))%Z)
    else None
  else None.

Definition fromisoformat_basic (s : string) : option (Z * option Z) :=
  if char_at s 4 "-"%char && char_at s 7 "-"%char && char_at s 10 "T"%char
     && char_at s 13 ":"%char && char_at s 16 ":"%char then
    y ← digits_at s 0 4; mo ← digits_at s 5 2; d ← digits_at s 8 2;
    h ← digits_at s 11 2; mi ← digits_at s 14 2; se ← digits_at s 17 2;
    wall ← wall_clock y mo d h mi se;
    off ← utc_offset s;
    Some (wall, off)
  else None.

(** ** Reading a trace *)

(** The record identifiers for which [requests.post] was called. *)
Definition dispatches (evs : list event) : list string :=
  omap (fun e => match e with Post _ r => Some (record_id r) | _ => None end) evs.

Fixpoint count (p : event -> bool) (evs : list event) : nat :=
  match evs with
  | [] => 0%nat
  | e :: evs' => ((if p e then 1 else 0) + count p evs')%nat
  end.

Definition is_processing (i : string) (e : event) : bool :=
  match e with Processing j => bool_decide (i = j) | _ => false end.
Definition is_skipping (i : string) (e : event) : bool :=
  match e with Skipping j => bool_decide (i = j) | _ => false end.
Definition is_sleep (e : event) : bool :=
  match e with Sleep _ => true | _ => false end.

(** A record is evaluated each time the loop reaches it ([Processing]) and
    does not take the [continue] of line 133 ([Skipping]). *)
Definition evaluated (i : string) (evs : list event) (n : nat) : Prop :=
  count (is_processing i) evs = (count (is_skipping i) evs + n)%nat.

Definition snapshot_ids (env : cycle_env) : list string :=
  match fetch env with
  | Some rs => map record_id rs
  | None => []
  end.

(** The identifiers returned by the fetches of the cycles [envs]. *)
Definition fetched_ids (envs : list cycle_env) : list string :=
  flat_map snapshot_ids envs.

(** [seen_n i s] is 1 when [i] is in the seen set [s] and 0 otherwise. *)
Definition seen_n (i : string) (s : gset string) : nat :=
  if bool_decide (i ∈ s) then 1%nat else 0%nat.

(** Two recipe objects that differ at most in the attributes the runner
    assigns: [is_running] and [last_execution_time]. *)
Definition touched (r r' : Automation) : Prop :=
  set_is_running false (set_last_execution_time None r')
  = set_is_running false (set_last_execution_time None r).




(** The events of a call of [send_webhook]: the post, and the log line
    when the post returned. *)
Definition webhook_events (post : record -> option Z) (rcp : Automation)
    (r : record) : list event :=
  Post (webhook_url rcp) r ::
  match post r with
  | Some status_code => [WebhookSent (name rcp) status_code]
  | None => []
  end.

(** The state at line 152, from the state in which the [for] loop over a
    snapshot of [n] records ended. *)
Definition close_cycle (env : cycle_env) (n : nat) (w : world) : world :=
  let w' := world_of (stop_tail env n w) in
  mk_world (set_last_execution_time (Some (last_checked_time w')) (recipe w'))
           (last_checked_time w') (processed_records w').

(** The watermark in the words of the design: the later of the persisted
    execution time and the loop-start time. *)
Definition later_of (persisted : option Z) (start_time : Z) : Z :=
  match persisted with
  | Some p => Z.max p start_time
  | None => start_time
  end.

(** Lines 179-181 on one recipe object. *)
Definition start_recipe (r : Automation) : Automation :=
  set_is_thread_running true (set_is_running true r).

(** Every recipe that is not marked running has a thread that was never
    started: the states [add_recipe] and [start_all] produce. *)
Definition idle_unstarted (m : RecipeManager) : Prop :=
  Forall2 (fun t r => is_running r = false -> t = Unstarted)
          (threads m) (recipes m).

(** [m'] holds, at every index of [m], a recipe whose [is_thread_running]
    is up if it was up in [m]. *)
Definition flag_kept (m m' : RecipeManager) : Prop :=
  forall i r, recipes m !! i = Some r ->
    exists r', recipes m' !! i = Some r' /\
               (is_thread_running r = true -> is_thread_running r' = true).

(** ** Concrete inputs

    The scenario of the design notes: a table with the records [r1] and
    [r2], once as the notes give them and once with the ['Last Modified']
    field that Airtable adds when the table has such a column. *)

Definition rec_r1 : record :=
  mk_record "r1" {[ "Status" := VStr "URGENT review" ]}.
Definition rec_r2 : record :=
  mk_record "r2" {[ "Status" := VStr "done" ]}.

Definition rec_r1_dated : record :=
  mk_record "r1" (<[ "Last Modified" := VStr "2024-05-01T12:00:00+02:00" ]>
                    {[ "Status" := VStr "URGENT review" ]}).
Definition rec_r2_dated : record :=
  mk_record "r2" (<[ "Last Modified" := VStr "2024-04-01T08:30:00" ]>
                    {[ "Status" := VStr "done" ]}).

(** The recipe [find_record] on field [Status] with text [URGENT]. *)
Definition urgent_recipe : Automation :=
  {| trigger := Some "find_record"; action := Some "send_webhook";
     webhook_url := Some "https://hooks.example.org/t"; base_key := Some "app1";
     table_name := Some "Tasks"; api_key := Some "key1";
     field_name := Some "Status"; text_to_find := Some "URGENT";
     name := Some "urgent"; last_execution_time := None;
     is_running := false; is_thread_running := false |}.

(** A recipe [airtable_record_updated]. *)
Definition updated_recipe : Automation :=
  {| trigger := Some "airtable_record_updated"; action := Some "send_webhook";
     webhook_url := Some "https://hooks.example.org/u"; base_key := Some "app1";
     table_name := Some "Tasks"; api_key := Some "key1";
     field_name := None; text_to_find := None;
     name := Some "updates"; last_execution_time := None;
     is_running := false; is_thread_running := false |}.


(** Every post is delivered and answered with status 200. *)
Definition post_ok (r : record) : option Z := Some 200.
(** Every post raises. *)
Definition post_down (r : record) : option Z := None.

(** A cycle whose fetch returns [rs], without a stop request. *)
Definition cycle_of (rs : list record) : cycle_env :=
  mk_env (Some rs) post_ok None.
(** A cycle whose fetch raises. *)
Definition cycle_fetch_fails : cycle_env := mk_env None post_ok None.

(** Wall-clock numbers of two instants, as [fromisoformat_basic] numbers
    them: 2024-04-15T00:00:00 and 2024-06-01T00:00:00. *)
Definition t_april_15 : Z := Eval vm_compute in
  default 0 (fst <$> fromisoformat_basic "2024-04-15T00:00:00").
Definition t_june_1 : Z := Eval vm_compute in
  default 0 (fst <$> fromisoformat_basic "2024-06-01T00:00:00").

(** The steps the program takes by itself: the commands and the thread
    steps, without a stop request from outside. *)
Definition own_step (o : op) : Prop :=
  match o with
  | RequestStop _ => False
  | ThreadCycle _ env => stop_at env = None
  | _ => True
  end.

(** ** Delivery outcomes *)

(** An event with the status code of the delivery blanked. *)
Definition erase_status (e : event) : event :=
  match e with
  | WebhookSent recipe_name _ => WebhookSent recipe_name 0
  | _ => e
  end.

(** Two notifiers that raise on the same payloads. *)
Definition same_failures (p1 p2 : record -> option Z) : Prop :=
  forall r, p1 r = None <-> p2 r = None.

(** Two cycles that differ at most in the status codes the notifier
    returns. *)
Definition same_but_status (e1 e2 : cycle_env) : Prop :=
  fetch e1 = fetch e2 /\ stop_at e1 = stop_at e2 /\
  same_failures (post e1) (post e2).

(** Two results equal up to the status codes in their events. *)
Definition agree {A} (res res' : result A) : Prop :=
  match res, res' with
  | Ok a w evs, Ok a' w' evs' =>
      a = a' /\ w = w' /\ erase_status <$> evs = erase_status <$> evs'
  | Raise e w evs, Raise e' w' evs' =>
      e = e' /\ w = w' /\ erase_status <$> evs = erase_status <$> evs'
  | _, _ => False
  end.

(** ** Manager invariants *)

(** The parallel lists of the manager have the same length. *)
Definition paired (m : RecipeManager) : Prop :=
  length (threads m) = length (recipes m).

(** A recipe whose thread was started, or that is marked running, has
    [is_thread_running] raised. *)
Definition running_flagged (m : RecipeManager) : Prop :=
  Forall2 (fun t r => t <> Unstarted \/ is_running r = true ->
                      is_thread_running r = true)
          (threads m) (recipes m).

(** ** Persistence: [save_recipe], [load_recipe], [load_all_recipes]

    A recipe file is a flat JSON object.  The model covers the objects
    whose values are strings or [null], which is what [save_recipe] writes
    for a recipe as [create_recipe] builds it: [None] is [null], [Some s] a
    string. *)

(** The keyword parameters of [Automation.__init__]. *)
Definition INIT_PARAMS : list string :=
  ["trigger"; "action"; "webhook_url"; "base_key"; "table_name"; "api_key";
   "field_name"; "text_to_find"; "name"].

(** [json.dump(vars(recipe), file)], for a recipe that has the attributes
    [__init__] sets, as at line 222 where [save_recipe] is called before
    [add_recipe]: the object written, or the [TypeError] of [json.dump] on a
    [datetime] value. *)
Definition save_recipe (r : Automation) : exn + gmap string (option string) :=
  match last_execution_time r with
  | Some _ => inl TypeError
  | None =>
      inr (list_to_map
             [("trigger", trigger r); ("action", action r);
              ("webhook_url", webhook_url r); ("base_key", base_key r);
              ("table_name", table_name r); ("api_key", api_key r);
              ("field_name", field_name r); ("text_to_find", text_to_find r);
              ("name", name r); ("last_execution_time", None)])
  end.

(** A keyword argument of a call: absent and [null] both give [None]. *)
Definition kwarg (d : gmap string (option string)) (k : string) : option string :=
  default None (d !! k).

(** Line 63, [Automation] called with the loaded object as keyword
    arguments: a key that is no parameter of [__init__] is a [TypeError]; a
    parameter without a key takes its default. *)
Definition load_recipe (d : gmap string (option string)) : exn + Automation :=
  if bool_decide (dom d ⊆ list_to_set INIT_PARAMS) then
    Automation_init (kwarg d "trigger") (kwarg d "action") (kwarg d "webhook_url")
                    (kwarg d "base_key") (kwarg d "table_name") (kwarg d "api_key")
                    (kwarg d "field_name") (kwarg d "text_to_find") (kwarg d "name")
  else inl TypeError.

(** [filename.endswith(suffix)] *)
Fixpoint ends_with (suffix s : string) : bool :=
  String.eqb s suffix ||
  match s with
  | EmptyString => false
  | String _ s' => ends_with suffix s'
  end.

(** A directory as [os.listdir()] returns it, each name with what
    [json.load] makes of the file: [None] when it rejects the content
    (a [ValueError]). *)
Definition directory : Type :=
  list (string * option (gmap string (option string))).

(** [load_all_recipes], from the manager built so far. *)
Fixpoint load_all_recipes (files : directory) (m : RecipeManager)
    : exn + RecipeManager :=
  match files with
  | [] => inr m
  | (filename, content) :: files' =>
      if ends_with ".json" filename then
        match content with
        | None => inl ValueError
        | Some d =>
            match load_recipe d with
            | inl e => inl e
            | inr r => load_all_recipes files' (add_recipe r m)
            end
        end
      else load_all_recipes files' m
  end.

(** [RecipeManager.__init__] *)
Definition RecipeManager_init (files : directory) : exn + RecipeManager :=
  load_all_recipes files (mk_manager [] []).

(** The recipe files of a directory, in listing order. *)
Definition json_files (files : directory) : directory :=
  List.filter (fun f => ends_with ".json" (fst f)) files.

(** A recipe as [__init__] leaves it: no execution time, flags down. *)
Definition fresh (r : Automation) : Automation :=
  set_is_thread_running false
    (set_is_running false (set_last_execution_time None r)).

(** A file that [load_all_recipes] can load: [json.load] accepts it and
    every key is a parameter of [__init__]. *)
Definition loadable (f : string * option (gmap string (option string))) : Prop :=
  exists d, snd f = Some d /\ dom d ⊆ list_to_set INIT_PARAMS.

(** The recipe a loadable file holds. *)
Definition recipe_of_file (f : string * option (gmap string (option string)))
    : option Automation :=
  match snd f with
  | Some d => match load_recipe d with inr r => Some r | inl _ => None end
  | None => None
  end.

(** ** The interactive surface: [select_option], [create_recipe], [main]

    The lines typed by the user are a list of strings; a function that
    reads returns the lines left.  [None] says that the input ended before
    the function returned ([input] raises [EOFError]). *)

Inductive console :=
| NotANumber        (* "Please enter a valid number." *)
| InvalidChoice.    (* "Invalid choice. Please choose a valid option." *)

Section Interactive.

(** Python's [int] on a string; [None] is its [ValueError]. *)
Variable py_int : string -> option Z.

(** Lines 99-107: the loop of [select_option] over the keys [options]. *)
Fixpoint select_option (options : list string) (inputs : list string)
    : option (string * list string * list console) :=
  match inputs with
  | [] => None
  | line :: rest =>
      match py_int line with
      | Some selection =>
          if (1 <=? selection)%Z && (selection <=? Z.of_nat (length options))%Z then
            match options !! Z.to_nat (selection - 1) with
            | Some key => Some (key, rest, [])
            | None => None
            end
          else
            match select_option options rest with
            | Some (key, rest', out) => Some (key, rest', InvalidChoice :: out)
            | None => None
            end
      | None =>
          match select_option options rest with
          | Some (key, rest', out) => Some (key, rest', NotANumber :: out)
          | None => None
          end
      end
  end.

(** A line that [select_option] accepts: a number from 1 to the number of
    options. *)
Definition valid_choice (options : list string) (line : string) : Prop :=
  exists z, py_int line = Some z /\ (1 <= z <= Z.of_nat (length options))%Z.

(** What [select_option] prints for a line it does not accept. *)
Definition complaint (line : string) : console :=
  match py_int line with
  | None => NotANumber
  | Some _ => InvalidChoice
  end.

(** [input(...)]: the next line. *)
Definition input (inputs : list string) : option (string * list string) :=
  match inputs with
  | [] => None
  | line :: rest => Some (line, rest)
  end.

(** [create_recipe()] *)
Definition create_recipe (inputs : list string)
    : option (Automation * list string * list console) :=
  '(trigger, inputs, out1) ← select_option TRIGGERS inputs;
  '(action, inputs, out2) ← select_option ACTIONS inputs;
  '(webhook_url, inputs) ←
     (if String.eqb action "send_webhook"
      then '(url, inputs) ← input inputs; Some (Some url, inputs)
      else Some (None, inputs));
  '(base_key, inputs) ← input inputs;
  '(table_name, inputs) ← input inputs;
  '(api_key, inputs) ← input inputs;
  '(field_name, text_to_find, inputs) ←
     (if String.eqb trigger "find_record"
      then '(f, inputs) ← input inputs;
           '(t, inputs) ← input inputs;
           Some (Some f, Some t, inputs)
      else Some (None, None, inputs));
  '(name, inputs) ← input inputs;
  match Automation_init (Some trigger) (Some action) webhook_url (Some base_key)
                        (Some table_name) (Some api_key) field_name text_to_find
                        (Some name) with
  | inr recipe => Some (recipe, inputs, (out1 ++ out2)%list)
  | inl _ => None
  end.




End Interactive.

(** ** More concrete inputs *)

(** A record whose ['Last Modified'] is no ISO date. *)
Definition rec_r3_malformed : record :=
  mk_record "r3" {[ "Last Modified" := VStr "yesterday" ]}.

(** A cycle whose posts are answered with status 500. *)
Definition cycle_rejected (rs : list record) : cycle_env :=
  mk_env (Some rs) (fun _ => Some 500%Z) None.

(** A manager with one recipe marked running and one idle. *)
Definition half_started : RecipeManager :=
  mk_manager [set_is_running true urgent_recipe; updated_recipe]
             [Entering; Unstarted].

(** A reading of [int] on the unsigned decimal numerals; the properties
    of the interactive surface hold for every reading. *)
Definition int_basic (s : string) : option Z :=
  match s with
  | EmptyString => None
  | _ => number (String.list_ascii_of_string s) 0%Z
  end.

(** The lines a user types to create the recipe [urgent_recipe], after one
    line that is no number and one that is out of range. *)
Definition urgent_lines : list string :=
  ["two"; "3"; "2"; "1"; "https://hooks.example.org/t"; "app1"; "Tasks"; "key1";
   "Status"; "URGENT"; "urgent"].

(** The object that [save_recipe] writes for [urgent_recipe]. *)
Definition urgent_saved : gmap string (option string) :=
  list_to_map
    [("trigger", Some "find_record"); ("action", Some "send_webhook");
     ("webhook_url", Some "https://hooks.example.org/t");
     ("base_key", Some "app1"); ("table_name", Some "Tasks");
     ("api_key", Some "key1"); ("field_name", Some "Status");
     ("text_to_find", Some "URGENT"); ("name", Some "urgent");
     ("last_execution_time", None)].


(** Unfolding of the monad's operations. *)
Ltac unfold_m :=
  unfold bind, ret, raise, emit, get, update_recipe, add_processed in *.

(** * Properties *)

Lemma count_app p evs1 evs2 :
  count p (evs1 ++ evs2) = (count p evs1 + count p evs2)%nat.
Proof. induction evs1 as [|e evs1 IH]; simpl; [done | rewrite IH; lia]. Qed.

Lemma dispatches_app evs1 evs2 :
  dispatches (evs1 ++ evs2) = (dispatches evs1 ++ dispatches evs2)%list.
Proof. apply omap_app. Qed.

Lemma touched_refl r : touched r r.
Proof. reflexivity. Qed.


Lemma touched_trans r1 r2 r3 : touched r1 r2 -> touched r2 r3 -> touched r1 r3.
Proof. unfold touched. congruence. Qed.

Lemma touched_set_is_running b r : touched r (set_is_running b r).
Proof. reflexivity. Qed.

Lemma touched_set_last_execution_time t r :
  touched r (set_last_execution_time t r).
Proof. reflexivity. Qed.

Lemma touched_is_thread_running r r' :
  touched r r' -> is_thread_running r' = is_thread_running r.
Proof. intros H. apply (f_equal is_thread_running) in H. exact H. Qed.


Lemma append_cons c (t b : string) : String c t +:+ b = String c (t +:+ b).
Proof. reflexivity. Qed.

Lemma prefix_app (t s : string) :
  String.prefix t s = true <-> exists b, s = t +:+ b.
Proof.
  revert s; induction t as [|c t IH]; intros s.
  - split; [intros _; by exists s | by destruct s].
  - destruct s as [|d s]; [split; [done | by intros [b ?]] |].
    cbn [String.prefix].
    destruct (Ascii.ascii_dec c d) as [->|Hne].
    + rewrite IH. split; intros [b Hb]; exists b;
        rewrite append_cons in *; congruence.
    + split; [done | intros [b Hb]; rewrite append_cons in Hb; congruence].
Qed.

(** [contains] is the substring test. *)
Lemma contains_substring (t s : string) :
  contains t s = true <-> exists a b, s = a +:+ t +:+ b.
Proof.
  induction s as [|c s IH]; cbn [contains].
  - rewrite orb_false_r, prefix_app. split.
    + intros [b Hb]. by exists "", b.
    + intros (a & b & Hab). destruct a; [by exists b | done].
  - rewrite orb_true_iff, prefix_app, IH. split.
    + intros [[b Hb] | (a & b & Hab)].
      * by exists "", b.
      * exists (String c a), b. rewrite append_cons. by rewrite Hab.
    + intros (a & b & Hab). destruct a as [|c' a].
      * left. by exists b.
      * right. exists a, b. rewrite append_cons in Hab. congruence.
Qed.

Section RunnerFacts.

Variable fromisoformat : string -> option (Z * option Z).

(** The evaluation of a record leaves the state alone and emits neither
    [Processing] nor [Skipping]. *)
Lemma evaluate_record_frame post r w :
  world_of (evaluate_record fromisoformat post r w) = w /\
  forall i, count (is_processing i) (events (evaluate_record fromisoformat post r w)) = 0%nat /\
            count (is_skipping i) (events (evaluate_record fromisoformat post r w)) = 0%nat.
Proof.
  unfold evaluate_record, parse_record_time, send_webhook, getitem, text_in.
  unfold_m.
  repeat (case_match; simplify_eq/=; try done).
Qed.

(** Line 131-133: a record already processed is skipped. *)
Lemma process_record_seen post r w :
  record_id r ∈ processed_records w ->
  process_record fromisoformat post r w
  = Ok tt w [Processing (record_id r); Skipping (record_id r)].
Proof.
  intros Hin. unfold process_record. unfold_m. simpl.
  by rewrite bool_decide_eq_true_2.
Qed.

(** Lines 135-149: a record not yet processed is evaluated, then marked. *)
Lemma process_record_unseen post r w :
  record_id r ∉ processed_records w ->
  process_record fromisoformat post r w
  = match evaluate_record fromisoformat post r w with
    | Ok _ _ evs =>
        Ok tt (mk_world (recipe w) (last_checked_time w)
                        ({[record_id r]} ∪ processed_records w))
           (Processing (record_id r) :: evs)
    | Raise e _ evs => Raise e w (Processing (record_id r) :: evs)
    end.
Proof.
  intros Hin. unfold process_record. unfold_m. simpl.
  rewrite bool_decide_eq_false_2 by done.
  pose proof (evaluate_record_frame post r w) as [Hw _].
  destruct (evaluate_record fromisoformat post r w); simpl in *; subst;
    by rewrite ?app_nil_r.
Qed.

Lemma seen_n_union_fresh i j (s : gset string) :
  j ∉ s -> seen_n i ({[j]} ∪ s) = ((if bool_decide (i = j) then 1 else 0) + seen_n i s)%nat.
Proof.
  intros Hj. unfold seen_n.
  destruct (decide (i = j)) as [->|Hne].
  - rewrite (bool_decide_eq_true_2 (j = j)) by done.
    rewrite (bool_decide_eq_true_2 (j ∈ {[j]} ∪ s)) by set_solver.
    by rewrite bool_decide_eq_false_2.
  - rewrite (bool_decide_eq_false_2 (i = j)) by done.
    apply (f_equal (fun b : bool => if b then 1%nat else 0%nat)).
    apply bool_decide_ext. set_solver.
Qed.

(** What one pass through the body of the [for] loop does to the seen set
    and to the count of evaluations, for every identifier [i]. *)
Lemma process_record_delta post r w i :
  match process_record fromisoformat post r w with
  | Ok _ w' evs =>
      recipe w' = recipe w /\ last_checked_time w' = last_checked_time w /\
      processed_records w' = {[record_id r]} ∪ processed_records w /\
      (count (is_processing i) evs + seen_n i (processed_records w)
       = count (is_skipping i) evs + seen_n i (processed_records w'))%nat
  | Raise _ w' evs =>
      w' = w /\
      (count (is_processing i) evs + seen_n i (processed_records w)
       <= count (is_skipping i) evs + 1)%nat
  end.
Proof.
  destruct (decide (record_id r ∈ processed_records w)) as [Hin|Hin].
  - rewrite process_record_seen by done. simpl.
    split_and!; [done | done | set_solver | lia].
  - rewrite process_record_unseen by done.
    pose proof (evaluate_record_frame post r w) as [_ Hc].
    specialize (Hc i) as [Hp Hs].
    destruct (evaluate_record fromisoformat post r w); simpl in *;
      rewrite Hp, Hs.
    + split_and!; try done. rewrite seen_n_union_fresh by done. lia.
    + split; [done |]. unfold seen_n. destruct (decide (i = record_id r)) as [->|Hne].
      * rewrite bool_decide_eq_true_2, bool_decide_eq_false_2 by done. lia.
      * rewrite bool_decide_eq_false_2 by done. case_bool_decide; lia.
Qed.

Lemma stop_hook_ok env n w :
  exists w1, stop_hook env n w = Ok tt w1 [] /\
             touched (recipe w) (recipe w1) /\
             last_checked_time w1 = last_checked_time w /\
             processed_records w1 = processed_records w.
Proof.
  unfold stop_hook. case_bool_decide; eexists; (split; [reflexivity |]);
    simpl; split_and!; auto using touched_refl, touched_set_is_running.
Qed.

(** The [for] loop over a snapshot. *)
Lemma for_records_delta env n rs w i :
  match for_records fromisoformat env n rs w with
  | Ok _ w' evs =>
      touched (recipe w) (recipe w') /\
      last_checked_time w' = last_checked_time w /\
      processed_records w' = list_to_set (map record_id rs) ∪ processed_records w /\
      (count (is_processing i) evs + seen_n i (processed_records w)
       = count (is_skipping i) evs + seen_n i (processed_records w'))%nat
  | Raise _ w' evs =>
      touched (recipe w) (recipe w') /\
      last_checked_time w' = last_checked_time w /\
      (count (is_processing i) evs + seen_n i (processed_records w)
       <= count (is_skipping i) evs + 1)%nat
  end.
Proof.
  revert n w. induction rs as [|r rs IH]; intros n w.
  - simpl. split_and!; [apply touched_refl | done | set_solver | done].
  - cbn [for_records]. unfold bind at 1.
    destruct (stop_hook_ok env n w) as (w1 & -> & Ht1 & Hl1 & Hp1).
    unfold bind at 1.
    pose proof (process_record_delta (post env) r w1 i) as Hd.
    rewrite <- Hp1.
    destruct (process_record fromisoformat (post env) r w1)
      as [[] w2 evs2|e w2 evs2].
    + destruct Hd as (Hr2 & Hl2 & Hp2 & Hc2).
      specialize (IH (S n) w2).
      destruct (for_records fromisoformat env (S n) rs w2) as [[] w3 evs3|e w3 evs3];
        simpl; rewrite !count_app.
      * destruct IH as (Ht3 & Hl3 & Hp3 & Hc3). split_and!.
        -- eapply touched_trans; [done |]. by rewrite <- Hr2.
        -- congruence.
        -- rewrite Hp3, Hp2. set_solver.
        -- lia.
      * destruct IH as (Ht3 & Hl3 & Hc3). split_and!.
        -- eapply touched_trans; [done |]. by rewrite <- Hr2.
        -- congruence.
        -- lia.
    + destruct Hd as (-> & Hc2). simpl. done.
Qed.

(** Nothing inside the [for] loop sleeps. *)
Lemma for_records_no_sleep env n rs w :
  count is_sleep (events (for_records fromisoformat env n rs w)) = 0%nat.
Proof.
  revert n w. induction rs as [|r rs IH]; intros n w; [done |].
  cbn [for_records]. unfold bind at 1.
  destruct (stop_hook_ok env n w) as (w1 & -> & _).
  unfold bind at 1.
  assert (count is_sleep (events (process_record fromisoformat (post env) r w1)) = 0%nat) as Hp.
  { unfold process_record, evaluate_record, parse_record_time, send_webhook,
      getitem, text_in. unfold_m.
    repeat (case_match; simplify_eq/=; try done). }
  destruct (process_record fromisoformat (post env) r w1) as [[] w2 evs2|e w2 evs2];
    [|done].
  specialize (IH (S n) w2).
  destruct (for_records fromisoformat env (S n) rs w2); simpl in *;
    rewrite count_app; lia.
Qed.

Lemma stop_tail_ok env n w :
  exists w1, stop_tail env n w = Ok tt w1 [] /\
             touched (recipe w) (recipe w1) /\
             last_checked_time w1 = last_checked_time w /\
             processed_records w1 = processed_records w.
Proof.
  unfold stop_tail. repeat case_match; eexists; (split; [reflexivity |]);
    simpl; split_and!; auto using touched_refl, touched_set_is_running.
Qed.

(** One iteration of the loop. *)
Lemma loop_body_delta env w i :
  match loop_body fromisoformat env w with
  | Ok f w' evs =>
      is_Some (fetch env) /\
      touched (recipe w) (recipe w') /\
      last_checked_time w' = last_checked_time w /\
      last_execution_time (recipe w') = Some (last_checked_time w) /\
      processed_records w' = list_to_set (snapshot_ids env) ∪ processed_records w /\
      (count (is_processing i) evs + seen_n i (processed_records w)
       = count (is_skipping i) evs + seen_n i (processed_records w'))%nat /\
      match f with
      | Break => is_running (recipe w') = false /\ count is_sleep evs = 0%nat
      | Continue => is_running (recipe w') = true
      end
  | Raise _ w' evs =>
      touched (recipe w) (recipe w') /\
      last_checked_time w' = last_checked_time w /\
      (count (is_processing i) evs + seen_n i (processed_records w)
       <= count (is_skipping i) evs + 1)%nat
  end.
Proof.
  unfold loop_body, get_all, snapshot_ids.
  destruct (fetch env) as [rs|]; unfold bind at 1; simpl.
  2: { split_and!; [apply touched_refl | done | unfold seen_n; case_bool_decide; lia]. }
  unfold bind at 1. simpl. unfold bind at 1.
  pose proof (for_records_delta env 0 rs w i) as Hd.
  pose proof (for_records_no_sleep env 0 rs w) as Hns.
  destruct (for_records fromisoformat env 0 rs w) as [[] w1 evs1|e w1 evs1]; [|done].
  destruct Hd as (Ht1 & Hl1 & Hp1 & Hc1).
  unfold bind at 1.
  destruct (stop_tail_ok env (length rs) w1) as (w2 & -> & Ht2 & Hl2 & Hp2).
  unfold bind, get, update_recipe, emit, ret. simpl.
  assert (touched (recipe w) (set_last_execution_time (Some (last_checked_time w2)) (recipe w2))) as Ht.
  { eapply touched_trans; [done |]. eapply touched_trans; [done |].
    apply touched_set_last_execution_time. }
  destruct (is_running (recipe w2)) eqn:Hrun; simpl; rewrite ?app_nil_r, ?count_app;
    simpl in *; split_and!; try done; try congruence; try lia;
    rewrite Hp2; lia.
Qed.

(** The whole loop, from any state. *)
Lemma while_true_delta envs w i :
  let r := while_true fromisoformat envs w in
  touched (recipe w) (recipe (run_world r)) /\
  last_checked_time (run_world r) = last_checked_time w /\
  (run_cycles r <= length envs)%nat /\
  match run_status r with
  | Raised _ =>
      (count (is_processing i) (run_trace r) + seen_n i (processed_records w)
       <= count (is_skipping i) (run_trace r) + 1)%nat
  | _ =>
      processed_records (run_world r)
      = list_to_set (fetched_ids (take (run_cycles r) envs)) ∪ processed_records w /\
      (count (is_processing i) (run_trace r) + seen_n i (processed_records w)
       = count (is_skipping i) (run_trace r)
         + seen_n i (processed_records (run_world r)))%nat /\
      (run_cycles r = 0%nat /\ run_world r = w \/
       last_execution_time (recipe (run_world r)) = Some (last_checked_time w))
  end.
Proof.
  revert w. induction envs as [|env envs IH]; intros w.
  - simpl. split_and!; [apply touched_refl | done | done | set_solver | done | by left].
  - cbn [while_true].
    pose proof (loop_body_delta env w i) as Hd.
    destruct (loop_body fromisoformat env w) as [[] w1 evs1|e w1 evs1].
    + destruct Hd as (_ & Ht & Hl & Hx & Hp & Hc & Hr).
      specialize (IH w1). cbv zeta in IH.
      destruct IH as (Ht' & Hl' & Hn' & IH).
      destruct (while_true fromisoformat envs w1) as [st w2 tr n]. simpl in *.
      split_and!; [by eapply touched_trans | congruence | lia |].
      rewrite !count_app.
      destruct st; [| lia |].
      all: destruct IH as (Hp' & Hc' & Hx'); split_and!;
        [ rewrite Hp', Hp; unfold fetched_ids; simpl;
          rewrite list_to_set_app_L; set_solver
        | lia
        | right; destruct Hx' as [[_ ->] | ->]; congruence ].
    + destruct Hd as (_ & Ht & Hl & Hx & Hp & Hc & Hr & _). simpl.
      split_and!; [| done | lia | | | by right].
      * eapply touched_trans; [done | apply touched_set_is_running].
      * rewrite Hp. unfold fetched_ids. simpl. rewrite app_nil_r. done.
      * done.
    + destruct Hd as (Ht & Hl & Hc). simpl. split_and!; [done | done | lia | done].
Qed.

Lemma size_list_to_set_dups (ids : list string) :
  size (list_to_set ids : gset string) = length (remove_dups ids).
Proof.
  rewrite <- (size_list_to_set (C := gset string) (remove_dups ids))
    by apply NoDup_remove_dups.
  f_equal. apply set_eq. intros x.
  by rewrite !elem_of_list_to_set, elem_of_remove_dups.
Qed.

(** C5: after the completed cycles of a run that no exception ended, the
    seen set is the set of the record identifiers returned by the fetches
    of those cycles, so its size is the number of distinct identifiers
    returned; every identifier returned was evaluated exactly once and no
    other identifier was evaluated; and a record whose identifier is already
    in the seen set is skipped: the loop body only prints and leaves the
    state as it is. *)
Theorem dedup_invariant rcp start_time envs :
  let r := execute_recipe fromisoformat rcp start_time envs in
  let ids := fetched_ids (take (run_cycles r) envs) in
  (forall e, run_status r <> Raised e) ->
  processed_records (run_world r) = list_to_set ids /\
  size (processed_records (run_world r)) = length (remove_dups ids) /\
  (forall i, evaluated i (run_trace r) (if bool_decide (i ∈ ids) then 1 else 0)) /\
  (forall post rec w,
     record_id rec ∈ processed_records w ->
     process_record fromisoformat post rec w
     = Ok tt w [Processing (record_id rec); Skipping (record_id rec)]).
Proof.
  intros r ids Hok.
  assert (processed_records (run_world r) = list_to_set ids /\
          forall i, evaluated i (run_trace r) (seen_n i (processed_records (run_world r))))
    as [Hseen Hev].
  { assert (forall i, processed_records (run_world r) = list_to_set ids /\
              evaluated i (run_trace r) (seen_n i (processed_records (run_world r)))) as H.
    { intros i.
      pose proof (while_true_delta envs (enter rcp start_time) i) as (_ & _ & _ & Hd).
      fold (execute_recipe fromisoformat rcp start_time envs) in Hd. fold r in Hd.
      unfold evaluated.
      destruct (run_status r) eqn:Hst; [| by destruct (Hok e) |];
        destruct Hd as (Hp & Hc & _); simpl in Hp, Hc;
        (split; [rewrite Hp; fold ids; set_solver |]);
        unfold seen_n in Hc at 1; rewrite bool_decide_eq_false_2 in Hc by set_solver;
        lia. }
    split; [apply (H "") | apply H]. }
  split_and!.
  - done.
  - rewrite Hseen. apply size_list_to_set_dups.
  - intros i. specialize (Hev i). rewrite Hseen in Hev. unfold seen_n in Hev.
    erewrite bool_decide_ext; [apply Hev |]. by rewrite elem_of_list_to_set.
  - apply process_record_seen.
Qed.

(** Whatever ends the run, no record identifier is evaluated twice. *)
Lemma evaluated_at_most_once rcp start_time envs i :
  let r := execute_recipe fromisoformat rcp start_time envs in
  (count (is_processing i) (run_trace r)
   <= count (is_skipping i) (run_trace r) + 1)%nat.
Proof.
  intros r.
  pose proof (while_true_delta envs (enter rcp start_time) i) as (_ & _ & _ & Hd).
  fold (execute_recipe fromisoformat rcp start_time envs) in Hd. fold r in Hd.
  assert (forall s, (seen_n i s <= 1)%nat) as Hle.
  { intros s. unfold seen_n. case_bool_decide; lia. }
  destruct (run_status r); [| lia |];
    destruct Hd as (_ & Hc & _);
    specialize (Hle (processed_records (run_world r))); lia.
Qed.

(** What the evaluation prints, logs and posts under the trigger
    [airtable_record_updated]. *)
Lemma evaluate_record_updated post r w :
  trigger (recipe w) = Some "airtable_record_updated" ->
  events (evaluate_record fromisoformat post r w)
  = match fields r !! "Last Modified" with
    | Some (VStr s) =>
        if String.eqb s "" then []
        else match fromisoformat s with
             | Some (wall, _) =>
                 RecordTime wall ::
                 (if (last_checked_time w <? wall)%Z
                  then DetectedUpdated (record_id r) :: webhook_events post (recipe w) r
                  else [])
             | None => []
             end
    | _ => []
    end.
Proof.
  intros Htr. destruct w as [rcp last_checked_time0 seen]. simpl in *.
  unfold evaluate_record, parse_record_time, send_webhook, trigger_is,
    webhook_events.
  destruct (fields r !! "Last Modified") as [[|b|z|s|l]|]; simpl; try done.
  - by destruct b.
  - by destruct (Z.eqb z 0).
  - destruct (String.eqb s ""); simpl; [done |].
    unfold_m. destruct (fromisoformat s) as [[wall off]|]; simpl; [| done].
    rewrite Htr, bool_decide_eq_true_2 by done. simpl.
    destruct (last_checked_time0 <? wall)%Z; simpl.
    + by destruct (post r).
    + done.
  - by destruct l.
Qed.

(** What the evaluation prints, logs and posts under the trigger
    [find_record]. *)
Lemma evaluate_record_find post r w :
  trigger (recipe w) = Some "find_record" ->
  events (evaluate_record fromisoformat post r w)
  = match fields r !! "Last Modified" with
    | Some (VStr s) =>
        if String.eqb s "" then []
        else match fromisoformat s with
             | Some (wall, _) =>
                 RecordTime wall ::
                 match field_name (recipe w) with
                 | Some f =>
                     match fields r !! f, text_to_find (recipe w) with
                     | Some (VStr v), Some t =>
                         if contains t v
                         then DetectedText (record_id r) :: webhook_events post (recipe w) r
                         else []
                     | _, _ => []
                     end
                 | None => []
                 end
             | None => []
             end
    | _ => []
    end.
Proof.
  intros Htr. destruct w as [rcp last_checked_time0 seen]. simpl in *.
  unfold evaluate_record, parse_record_time, send_webhook, trigger_is,
    field_name_in, getitem, text_in, webhook_events.
  destruct (fields r !! "Last Modified") as [[|b|z|s|l]|]; simpl; try done.
  - by destruct b.
  - by destruct (Z.eqb z 0).
  - destruct (String.eqb s ""); simpl; [done |].
    unfold_m. destruct (fromisoformat s) as [[wall off]|]; simpl; [| done].
    rewrite Htr. simpl.
    destruct (field_name rcp) as [f|]; simpl; [| done].
    destruct (fields r !! f) as [v|] eqn:Hf; simpl.
    + destruct v as [|b|z|v|l]; simpl; try done.
      destruct (text_to_find rcp) as [t|]; simpl; [| done].
      destruct (contains t v); simpl; [| done].
      by destruct (post r).
    + done.
  - by destruct l.
Qed.

Lemma process_record_unseen_events post r w :
  record_id r ∉ processed_records w ->
  events (process_record fromisoformat post r w)
  = Processing (record_id r) :: events (evaluate_record fromisoformat post r w).
Proof.
  intros Hin. rewrite process_record_unseen by done.
  by destruct (evaluate_record fromisoformat post r w).
Qed.

Lemma dispatches_webhook_events post rcp r :
  dispatches (webhook_events post rcp r) = [record_id r].
Proof. unfold webhook_events. by destruct (post r). Qed.

(** C6: a record not yet seen, evaluated under the trigger
    [airtable_record_updated], is dispatched (one call of [requests.post]
    with the recipe's URL and the record as payload) iff its field
    ['Last Modified'] is a non-empty string that [fromisoformat] accepts and
    whose wall-clock value, the offset dropped, is strictly greater than the
    watermark; a record without that field is never dispatched, whatever
    the watermark. *)
Theorem record_updated_fires post r w :
  trigger (recipe w) = Some "airtable_record_updated" ->
  record_id r ∉ processed_records w ->
  let evs := events (process_record fromisoformat post r w) in
  (Post (webhook_url (recipe w)) r ∈ evs <->
   exists s wall off,
     fields r !! "Last Modified" = Some (VStr s) /\ s <> "" /\
     fromisoformat s = Some (wall, off) /\
     (last_checked_time w < wall)%Z) /\
  (Post (webhook_url (recipe w)) r ∈ evs -> dispatches evs = [record_id r]) /\
  (Post (webhook_url (recipe w)) r ∉ evs -> dispatches evs = []) /\
  (fields r !! "Last Modified" = None -> dispatches evs = []).
Proof.
  intros Htr Hunseen evs. subst evs.
  rewrite process_record_unseen_events, evaluate_record_updated by done.
  assert (forall P : Prop, ~ P -> (Post (webhook_url (recipe w)) r ∈ [Processing (record_id r)] <-> P)) as Hno.
  { intros P HP. split; [| done]. rewrite elem_of_cons, elem_of_nil. by intros [|]. }
  assert (Post (webhook_url (recipe w)) r ∉ [Processing (record_id r)]) as Hno'.
  { rewrite elem_of_cons, elem_of_nil. by intros [|]. }
  destruct (fields r !! "Last Modified") as [[|b|z|s|l]|] eqn:Hlm;
    try (split_and!; [apply Hno; by intros (? & ? & ? & ? & _) | done..]).
  destruct (String.eqb_spec s "") as [->|Hne].
  { split_and!; [apply Hno; intros (? & ? & ? & ? & ? & _); by simplify_eq | done..]. }
  destruct (fromisoformat s) as [[wall off]|] eqn:Hp.
  2: { split_and!; [apply Hno; intros (? & ? & ? & ? & ? & ? & _); congruence | done..]. }
  destruct (Z.ltb_spec (last_checked_time w) wall) as [Hlt|Hge].
  - unfold webhook_events. split_and!; try done.
    + split; [intros _; by exists s, wall, off |]. intros _. set_solver.
    + intros _. simpl. by destruct (post r).
    + intros []. set_solver.
  - split_and!; try done.
    + split.
      * rewrite !elem_of_cons, elem_of_nil. by intros [|[|]].
      * intros (s' & wall' & off' & ? & ? & ? & ?). simplify_eq. lia.
    + rewrite !elem_of_cons, elem_of_nil. by intros [|[|]].
Qed.

(** ** The stop request is read only at the end of a cycle *)




Lemma for_records_cons env n r rs w w1 :
  stop_hook env n w = Ok tt w1 [] ->
  for_records fromisoformat env n (r :: rs) w
  = match process_record fromisoformat (post env) r w1 with
    | Ok _ w2 evs2 =>
        match for_records fromisoformat env (S n) rs w2 with
        | Ok a w3 evs3 => Ok a w3 (evs2 ++ evs3)
        | Raise e w3 evs3 => Raise e w3 (evs2 ++ evs3)
        end
    | Raise e w2 evs2 => Raise e w2 evs2
    end.
Proof.
  intros H. cbn [for_records]. unfold bind. rewrite H. simpl.
  destruct (process_record fromisoformat (post env) r w1); [| done].
  by destruct (for_records fromisoformat env (S n) rs w0).
Qed.




(** One iteration of the loop, in terms of its [for] loop. *)
Lemma loop_body_unfold env w rs :
  fetch env = Some rs ->
  loop_body fromisoformat env w
  = match for_records fromisoformat env 0 rs w with
    | Ok _ w1 evs1 =>
        let w2 := close_cycle env (length rs) w1 in
        if is_running (recipe w2)
        then Ok Continue w2 (Fetched (length rs) :: evs1 ++ [Sleep 10])
        else Ok Break w2 (Fetched (length rs) :: evs1)
    | Raise e w1 evs1 => Raise e w1 (Fetched (length rs) :: evs1)
    end.
Proof.
  intros Hf. unfold loop_body, get_all, close_cycle. rewrite Hf.
  unfold bind at 1. unfold ret at 1. cbv iota beta.
  unfold bind at 1. unfold emit at 1. cbv iota beta.
  unfold bind at 1.
  destruct (for_records fromisoformat env 0 rs w) as [[] w1 evs1|e w1 evs1]; [| done].
  unfold bind at 1.
  destruct (stop_tail_ok env (length rs) w1) as (w2 & -> & _).
  unfold bind, get, update_recipe, emit, ret. simpl.
  destruct (is_running (recipe w2)); simpl; by rewrite ?app_nil_r.
Qed.




(** ** The watermark *)

(** C4, as the code has it: the watermark is set once, when the loop is
    entered, to the persisted execution time if the recipe carries one and
    to the loop-start time otherwise (not to the later of the two); no
    iteration changes it, whatever the iteration does, so it has the same
    value after any number of cycles; and each completed iteration stores
    it back into [recipe.last_execution_time]. *)
Theorem watermark_fixed rcp start_time envs :
  let r := execute_recipe fromisoformat rcp start_time envs in
  let watermark := last_checked_time (enter rcp start_time) in
  watermark = match last_execution_time rcp with
              | Some persisted => persisted
              | None => start_time
              end /\
  last_checked_time (run_world r) = watermark /\
  (forall env w,
     last_checked_time (world_of (loop_body fromisoformat env w))
     = last_checked_time w) /\
  match run_status r with
  | Raised _ => True
  | _ => run_cycles r = 0%nat \/
         last_execution_time (recipe (run_world r)) = Some watermark
  end.
Proof.
  intros r watermark.
  pose proof (while_true_delta envs (enter rcp start_time) "") as (_ & Hl & _ & Hd).
  fold (execute_recipe fromisoformat rcp start_time envs) in Hl, Hd. fold r in Hl, Hd.
  split_and!.
  - subst watermark. unfold enter. simpl. by destruct (last_execution_time rcp).
  - done.
  - intros env w. pose proof (loop_body_delta env w "") as H.
    destruct (loop_body fromisoformat env w); simpl; [by destruct H as (_ & _ & ? & _) |].
    by destruct H as (_ & ? & _).
  - destruct (run_status r); [| done |];
      destruct Hd as (_ & _ & [[? _] | ?]); auto.
Qed.

(** ** Failures *)

Lemma while_true_app pre more w :
  let r1 := while_true fromisoformat pre w in
  let r2 := while_true fromisoformat more (run_world r1) in
  run_status r1 = Polling ->
  run_cycles r1 = length pre /\
  while_true fromisoformat (pre ++ more) w
  = mk_run (run_status r2) (run_world r2) (run_trace r1 ++ run_trace r2)
           (length pre + run_cycles r2).
Proof.
  revert w. induction pre as [|e pre IH]; intros w; cbv zeta.
  - simpl. intros _. split; [done |].
    by destruct (while_true fromisoformat more w).
  - cbn [app while_true].
    destruct (loop_body fromisoformat e w) as [[] w1 evs1|]; simpl; try done.
    intros Hst. specialize (IH w1 Hst) as (Hn & ->). simpl.
    split; [by rewrite Hn |]. unfold after_cycle. simpl.
    by rewrite app_assoc.
Qed.

(** Without a stop request the [for] loop does not touch the recipe,
    however it ends. *)
Lemma for_records_no_stop_recipe env n rs w :
  stop_at env = None ->
  recipe (world_of (for_records fromisoformat env n rs w)) = recipe w.
Proof.
  intros Hs. revert n w. induction rs as [|r rs IH]; intros n w; [done |].
  assert (stop_hook env n w = Ok tt w []) as Hh.
  { unfold stop_hook. by rewrite Hs. }
  rewrite (for_records_cons env n r rs w w Hh).
  pose proof (process_record_delta (post env) r w "") as Hd.
  destruct (process_record fromisoformat (post env) r w) as [[] w2 evs2|e2 w2 evs2].
  - destruct Hd as (Hr & _). specialize (IH (S n) w2).
    destruct (for_records fromisoformat env (S n) rs w2); simpl in *; congruence.
  - by destruct Hd as (-> & _).
Qed.


(** Without a stop request an iteration leaves [is_running] as it is,
    however the iteration ends. *)
Lemma loop_body_no_stop_is_running env w :
  stop_at env = None ->
  is_running (recipe (world_of (loop_body fromisoformat env w)))
  = is_running (recipe w).
Proof.
  intros Hs. destruct (fetch env) as [rs|] eqn:Hf.
  2: { unfold loop_body, get_all. rewrite Hf. by simpl. }
  rewrite (loop_body_unfold env w rs Hf).
  pose proof (for_records_no_stop_recipe env 0 rs w Hs) as Hrec.
  destruct (for_records fromisoformat env 0 rs w) as [[] w1 evs1|e w1 evs1];
    simpl in Hrec.
  - assert (is_running (recipe (close_cycle env (length rs) w1))
            = is_running (recipe w)) as Hrun.
    { unfold close_cycle, stop_tail. rewrite Hs. simpl. by rewrite Hrec. }
    cbv zeta. revert Hrun.
    generalize (close_cycle env (length rs) w1). intros w2 Hrun.
    destruct (is_running (recipe w2)) eqn:E; simpl; congruence.
  - simpl. by rewrite Hrec.
Qed.




(** ** The trigger [find_record] *)

(** X18: what the code does for a record not yet seen under
    [find_record]: it is dispatched iff its ['Last Modified'] field is a
    non-empty string that parses, the configured field is present and holds
    a string, and the configured text is a substring of it. *)
Lemma find_record_fires post r w :
  trigger (recipe w) = Some "find_record" ->
  record_id r ∉ processed_records w ->
  Post (webhook_url (recipe w)) r
    ∈ events (process_record fromisoformat post r w) <->
  exists s wall off f v t,
    fields r !! "Last Modified" = Some (VStr s) /\ s <> "" /\
    fromisoformat s = Some (wall, off) /\
    field_name (recipe w) = Some f /\ fields r !! f = Some (VStr v) /\
    text_to_find (recipe w) = Some t /\ contains t v = true.
Proof.
  intros Htr Hunseen.
  rewrite process_record_unseen_events, evaluate_record_find by done.
  assert (forall evs, Post (webhook_url (recipe w)) r ∈ Processing (record_id r) :: evs
                      <-> Post (webhook_url (recipe w)) r ∈ evs) as Hskip.
  { intros evs. rewrite elem_of_cons. naive_solver. }
  rewrite Hskip.
  destruct (fields r !! "Last Modified") as [[|b|z|s|l]|] eqn:Hlm;
    try (rewrite elem_of_nil; split; [done | by intros (? & ? & ? & ? & ? & ? & ? & _)]).
  destruct (String.eqb_spec s "") as [->|Hne].
  { rewrite elem_of_nil. split; [done |].
    intros (? & ? & ? & ? & ? & ? & ? & ? & _). by simplify_eq. }
  destruct (fromisoformat s) as [[wall off]|] eqn:Hp.
  2: { rewrite elem_of_nil. split; [done |].
       intros (? & ? & ? & ? & ? & ? & ? & ? & ? & _). by simplify_eq. }
  assert (forall evs, Post (webhook_url (recipe w)) r ∈ RecordTime wall :: evs
                      <-> Post (webhook_url (recipe w)) r ∈ evs) as Hskip'.
  { intros evs. rewrite elem_of_cons. naive_solver. }
  rewrite Hskip'.
  destruct (field_name (recipe w)) as [f|] eqn:Hf.
  2: { rewrite elem_of_nil. split; [done |].
       by intros (? & ? & ? & ? & ? & ? & ? & ? & ? & ? & _). }
  destruct (fields r !! f) as [[|b|z|v|l]|] eqn:Hv;
    try (rewrite elem_of_nil; split; [done |];
         intros (? & ? & ? & ? & ? & ? & ? & ? & ? & ? & ? & _); by simplify_eq).
  destruct (text_to_find (recipe w)) as [t|] eqn:Ht.
  2: { rewrite elem_of_nil. split; [done |].
       by intros (? & ? & ? & ? & ? & ? & ? & ? & ? & ? & ? & ? & _). }
  destruct (contains t v) eqn:Hc.
  2: { rewrite elem_of_nil. split; [done |].
       intros (? & ? & ? & ? & ? & ? & ? & ? & ? & ? & ? & ? & ?).
       simplify_eq. congruence. }
  unfold webhook_events. split.
  - intros _. by exists s, wall, off, f, v, t.
  - intros _. set_solver.
Qed.

(** Under [find_record] a record without ['Last Modified'] is never
    dispatched, whatever its other fields hold. *)
Lemma find_record_needs_last_modified post r w :
  trigger (recipe w) = Some "find_record" ->
  fields r !! "Last Modified" = None ->
  dispatches (events (process_record fromisoformat post r w)) = [].
Proof.
  intros Htr Hlm.
  destruct (decide (record_id r ∈ processed_records w)) as [Hseen|Hseen].
  - by rewrite process_record_seen.
  - rewrite process_record_unseen_events, evaluate_record_find by done.
    by rewrite Hlm.
Qed.

(** ** Trigger tags *)


End RunnerFacts.

(** ** The manager *)

Lemma start_each_spec ts rs :
  Forall2 (fun t r => is_running r = false -> t = Unstarted) ts rs ->
  start_each ts rs
  = mk_outcome
      (mk_manager
         (map (fun r => if is_running r then r else start_recipe r) rs)
         (zip_with (fun t r => if is_running r then t else Entering) ts rs))
      (map (fun r => if is_running r
                     then AlreadyRunning (name r) (webhook_url r)
                     else StartedMsg (name r) (webhook_url r)) rs)
      None.
Proof.
  induction 1 as [|t r ts rs Hidle Hall IH]; [done |].
  cbn [start_each]. rewrite IH. simpl.
  destruct (is_running r) eqn:Hrun; [done |].
  by rewrite (Hidle eq_refl).
Qed.


(** C10: with no recipe at all, [start_all] logs "All recipes are already
    running" and starts nothing. *)
Theorem start_all_empty ts :
  start_all (mk_manager [] ts)
  = mk_outcome (mk_manager [] ts) [AllAlreadyRunning] None.
Proof. reflexivity. Qed.

(** [add_recipe] and [start_all] keep idle recipes on unstarted threads. *)
Lemma add_recipe_idle_unstarted r m :
  idle_unstarted m -> idle_unstarted (add_recipe r m).
Proof.
  intros H. unfold idle_unstarted, add_recipe. simpl.
  apply Forall2_app; [done |]. by constructor.
Qed.

Lemma start_all_idle_unstarted m :
  idle_unstarted m -> idle_unstarted (out_manager (start_all m)).
Proof.
  intros H. unfold start_all.
  destruct (forallb is_running (recipes m)); [done |].
  rewrite (start_each_spec _ _ H). unfold idle_unstarted in *. simpl.
  induction H as [|t r ts rs Hidle Hall IH]; [constructor |].
  simpl. constructor; [| done].
  destruct (is_running r) eqn:Hrun; [by rewrite Hrun | done].
Qed.

(** ** [is_thread_running] is never reset *)

Lemma flag_kept_refl m : flag_kept m m.
Proof. intros i r H. by exists r. Qed.

Lemma flag_kept_trans m1 m2 m3 :
  flag_kept m1 m2 -> flag_kept m2 m3 -> flag_kept m1 m3.
Proof.
  intros H12 H23 i r H. destruct (H12 i r H) as (r2 & H2 & Hf2).
  destruct (H23 i r2 H2) as (r3 & H3 & Hf3). exists r3. split; auto.
Qed.

(** Replacing the recipe at [j] by one with the same flag keeps the flag. *)
Lemma flag_kept_insert m j r0 r1 ts :
  recipes m !! j = Some r0 ->
  is_thread_running r1 = is_thread_running r0 ->
  flag_kept m (mk_manager (<[j := r1]> (recipes m)) ts).
Proof.
  intros Hj Hflag i r Hi. simpl.
  destruct (decide (j = i)) as [->|Hne].
  - exists r1. split; [| congruence].
    apply list_lookup_insert_eq. by eapply lookup_lt_Some.
  - exists r. by rewrite list_lookup_insert_ne.
Qed.

Lemma start_each_flag_kept ts rs :
  flag_kept (mk_manager rs ts) (out_manager (start_each ts rs)).
Proof.
  revert rs. induction ts as [|t ts IH]; intros [|r rs]; try apply flag_kept_refl.
  cbn [start_each].
  assert (forall r' t', (is_thread_running r = true -> is_thread_running r' = true) ->
            flag_kept (mk_manager (r :: rs) (t :: ts))
              (mk_manager (r' :: recipes (out_manager (start_each ts rs)))
                          (t' :: threads (out_manager (start_each ts rs))))) as Hcons.
  { intros r' t' Hf [|i] r0 Hi; simpl in *.
    - simplify_eq. by exists r'.
    - apply (IH rs i r0 Hi). }
  destruct (is_running r); simpl; [by apply Hcons |].
  destruct (thread_start t); simpl; [by apply Hcons | apply flag_kept_refl].
Qed.

Section ProgramFacts.

Variable fromisoformat : string -> option (Z * option Z).

Lemma apply_op_flag_kept m o : flag_kept m (apply_op fromisoformat m o).
Proof.
  destruct o as [r | | | i start_time | i env | i]; simpl.
  - intros i r0 Hi. exists r0. split; [| done].
    unfold add_recipe. simpl. by apply lookup_app_l_Some.
  - unfold start_all. destruct (forallb is_running (recipes m)); simpl.
    + apply flag_kept_refl.
    + destruct m as [rs ts]. apply start_each_flag_kept.
  - apply flag_kept_refl.
  - unfold thread_enter.
    destruct (threads m !! i) as [[| | |]|] eqn:Ht; try apply flag_kept_refl.
    destruct (recipes m !! i) as [r|] eqn:Hr; [| apply flag_kept_refl].
    by eapply flag_kept_insert.
  - unfold thread_cycle.
    destruct (threads m !! i) as [[| |lct seen|]|] eqn:Ht; try apply flag_kept_refl.
    destruct (recipes m !! i) as [r|] eqn:Hr; [| apply flag_kept_refl].
    pose proof (loop_body_delta fromisoformat env (mk_world r lct seen) "") as Hd.
    destruct (loop_body fromisoformat env (mk_world r lct seen)) as [[] w' evs|e w' evs].
    + destruct Hd as (_ & Htouch & _). eapply flag_kept_insert; [done |].
      apply (touched_is_thread_running _ _ Htouch).
    + destruct Hd as (_ & Htouch & _). eapply flag_kept_insert; [done |].
      apply (touched_is_thread_running _ _ Htouch).
    + destruct Hd as (Htouch & _). eapply flag_kept_insert; [done |].
      apply (touched_is_thread_running _ _ Htouch).
  - unfold request_stop.
    destruct (recipes m !! i) as [r|] eqn:Hr; [| apply flag_kept_refl].
    by eapply flag_kept_insert.
Qed.

Lemma apply_ops_flag_kept m os : flag_kept m (apply_ops fromisoformat m os).
Proof.
  revert m. induction os as [|o os IH]; intros m; [apply flag_kept_refl |].
  unfold apply_ops. simpl. eapply flag_kept_trans; [apply apply_op_flag_kept |].
  apply IH.
Qed.

(** C9: a recipe whose [is_thread_running] is up keeps it up through
    every sequence of commands, thread steps and stop requests, so
    [log_status] labels it "running" ever after; in particular, when its
    thread breaks out of the loop and line 156 marks the recipe stopped
    ([is_running = False]), the label is still "running". *)
Theorem status_running_forever m i r os :
  recipes m !! i = Some r ->
  is_thread_running r = true ->
  let m' := apply_ops fromisoformat m os in
  (exists r',
     recipes m' !! i = Some r' /\ is_thread_running r' = true /\
     log_status m' !! i = Some (StatusLine (name r') (webhook_url r') "running")) /\
  (forall env lct seen w' evs,
     threads m !! i = Some (Looping lct seen) ->
     loop_body fromisoformat env (mk_world r lct seen) = Ok Break w' evs ->
     exists r',
       recipes (thread_cycle fromisoformat i env m) !! i = Some r' /\
       is_running r' = false /\
       status_label r' = "running").
Proof.
  intros Hi Hflag m'. subst m'. split.
  - destruct (apply_ops_flag_kept m os i r Hi) as (r' & Hi' & Hf).
    exists r'. split_and!; [done | auto |].
    unfold log_status. rewrite list_lookup_fmap, Hi'. simpl.
    unfold status_label. by rewrite (Hf Hflag).
  - intros env lct seen w' evs Ht Hloop.
    pose proof (loop_body_delta fromisoformat env (mk_world r lct seen) "") as Hd.
    unfold thread_cycle. rewrite Ht, Hi, Hloop. rewrite Hloop in Hd.
    destruct Hd as (_ & Htouch & _).
    exists (set_is_running false (recipe w')). split_and!.
    + simpl. apply list_lookup_insert_eq. by eapply lookup_lt_Some.
    + done.
    + unfold status_label.
      change (is_thread_running (set_is_running false (recipe w')))
        with (is_thread_running (recipe w')).
      rewrite (touched_is_thread_running _ _ Htouch). simpl. by rewrite Hflag.
Qed.

(** By its own steps the program only reaches managers whose idle recipes
    have threads never started. *)
Lemma apply_op_idle_unstarted m o :
  own_step o -> idle_unstarted m -> idle_unstarted (apply_op fromisoformat m o).
Proof.
  intros Hown Hinv. destruct o as [r | | | i start_time | i env | i]; simpl in *.
  - by apply add_recipe_idle_unstarted.
  - by apply start_all_idle_unstarted.
  - done.
  - unfold thread_enter.
    destruct (threads m !! i) as [[| | |]|] eqn:Ht; try done.
    destruct (recipes m !! i) as [r|] eqn:Hr; [| done].
    unfold idle_unstarted. simpl. by apply Forall2_insert.
  - unfold thread_cycle.
    destruct (threads m !! i) as [[| |lct seen|]|] eqn:Ht; try done.
    destruct (recipes m !! i) as [r|] eqn:Hr; [| done].
    assert (is_running r = true) as Hrun.
    { pose proof (Forall2_lookup_lr _ _ _ _ _ _ Hinv Ht Hr) as H.
      simpl in H. destruct (is_running r); [done |]. by specialize (H eq_refl). }
    pose proof (loop_body_no_stop_is_running fromisoformat env
                  (mk_world r lct seen) Hown) as Hkeep.
    pose proof (loop_body_delta fromisoformat env (mk_world r lct seen) "") as Hd.
    simpl in Hkeep. rewrite Hrun in Hkeep.
    destruct (loop_body fromisoformat env (mk_world r lct seen))
      as [[] w' evs|e w' evs]; simpl in Hkeep.
    + unfold idle_unstarted. simpl. apply Forall2_insert; [done | congruence].
    + destruct Hd as (_ & _ & _ & _ & _ & _ & Hdown & _). congruence.
    + unfold idle_unstarted. simpl. apply Forall2_insert; [done | congruence].
  - done.
Qed.

Lemma apply_ops_idle_unstarted os :
  Forall own_step os ->
  idle_unstarted (apply_ops fromisoformat (mk_manager [] []) os).
Proof.
  assert (forall m, Forall own_step os -> idle_unstarted m ->
                    idle_unstarted (apply_ops fromisoformat m os)) as H.
  { induction os as [|o os IH]; intros m Hall Hinv; [done |].
    inversion Hall; subst. unfold apply_ops. simpl.
    apply IH; [done |]. by apply apply_op_idle_unstarted. }
  intros Hall. apply H; [done | constructor].
Qed.

End ProgramFacts.

(** * The properties on concrete runs *)

(** C1: on the scenario of the design notes (recipe [find_record] on
    [Status] with text [URGENT], snapshot [r1] with "URGENT review" and [r2]
    with "done", fetched twice) the code dispatches nothing at all, in
    cycle 1 as in cycle 2: the records carry no ['Last Modified'] field and
    the test of [find_record] sits inside [if record_time_str:].  Both
    records are marked seen in cycle 1, so [r1] is never dispatched. *)
Theorem find_record_scenario_dispatches_nothing :
  let cycle1 :=
    execute_recipe fromisoformat_basic urgent_recipe t_april_15
      [cycle_of [rec_r1; rec_r2]] in
  let both :=
    execute_recipe fromisoformat_basic urgent_recipe t_april_15
      [cycle_of [rec_r1; rec_r2]; cycle_of [rec_r1; rec_r2]] in
  run_status cycle1 = Polling /\ dispatches (run_trace cycle1) = [] /\
  run_status both = Polling /\ run_cycles both = 2%nat /\
  dispatches (run_trace both) = [] /\
  elements (processed_records (run_world both)) = ["r1"; "r2"].
Proof. vm_compute. by split_and!. Qed.

(** The same scenario when the records carry ['Last Modified']: one
    dispatch, for [r1], in cycle 1, and none in cycle 2. *)
Example find_record_scenario_dated :
  let cycle1 :=
    execute_recipe fromisoformat_basic urgent_recipe t_april_15
      [cycle_of [rec_r1_dated; rec_r2_dated]] in
  let both :=
    execute_recipe fromisoformat_basic urgent_recipe t_april_15
      [cycle_of [rec_r1_dated; rec_r2_dated];
       cycle_of [rec_r1_dated; rec_r2_dated]] in
  dispatches (run_trace cycle1) = ["r1"] /\
  dispatches (run_trace both) = ["r1"] /\ run_cycles both = 2%nat.
Proof. vm_compute. by split_and!. Qed.


(** A delivery failure ends the run too, in the middle of the cycle: [r2],
    which follows the record whose post raised, is never processed, and
    [r1] is not marked seen. *)
Example delivery_failure_stops_runner :
  let r := execute_recipe fromisoformat_basic urgent_recipe t_april_15
             [mk_env (Some [rec_r1_dated; rec_r2_dated]) post_down None] in
  run_status r = Raised PostError /\ run_cycles r = 0%nat /\
  count (is_processing "r2") (run_trace r) = 0%nat /\
  elements (processed_records (run_world r)) = [].
Proof. vm_compute. by split_and!. Qed.


(** C4, counterexample: with a persisted execution time (April 15) earlier
    than the loop-start time (June 1) the watermark is the persisted time,
    not the later of the two. *)
Lemma watermark_is_not_the_later :
  let rcp := set_last_execution_time (Some t_april_15) updated_recipe in
  let r := execute_recipe fromisoformat_basic rcp t_june_1 [cycle_of []] in
  (t_april_15 < t_june_1)%Z /\
  last_checked_time (run_world r) = t_april_15 /\
  last_checked_time (run_world r)
  <> later_of (last_execution_time rcp) t_june_1.
Proof. vm_compute. by split_and!. Qed.

(** After a requested stop the thread cannot be started again: the recipe
    is no longer marked running, [start_all] calls [Thread.start] on its
    finished thread, and that raises. *)
Example start_all_after_stop_raises :
  let m := apply_ops fromisoformat_basic (mk_manager [] [])
             [Create urgent_recipe; StartAll; ThreadEnter 0 t_april_15;
              RequestStop 0; ThreadCycle 0 (cycle_of [])] in
  threads m = [Finished] /\ (is_running <$> recipes m) = [false] /\
  out_exn (start_all m) = Some RuntimeError.
Proof. vm_compute. by split_and!. Qed.

(** ** Instances *)



(** C5 at two cycles over the same two records. *)
Lemma dedup_invariant_witness :
  (forall e,
     run_status (execute_recipe fromisoformat_basic updated_recipe t_april_15
                   [cycle_of [rec_r1_dated; rec_r2_dated];
                    cycle_of [rec_r2_dated; rec_r1_dated]]) <> Raised e) /\
  size (processed_records
          (run_world (execute_recipe fromisoformat_basic updated_recipe t_april_15
                        [cycle_of [rec_r1_dated; rec_r2_dated];
                         cycle_of [rec_r2_dated; rec_r1_dated]]))) = 2%nat.
Proof.
  assert (forall e,
     run_status (execute_recipe fromisoformat_basic updated_recipe t_april_15
                   [cycle_of [rec_r1_dated; rec_r2_dated];
                    cycle_of [rec_r2_dated; rec_r1_dated]]) <> Raised e) as H.
  { intros e. vm_compute. discriminate. }
  split; [exact H |].
  destruct (dedup_invariant fromisoformat_basic updated_recipe t_april_15
              [cycle_of [rec_r1_dated; rec_r2_dated];
               cycle_of [rec_r2_dated; rec_r1_dated]] H) as (_ & Hsize & _).
  rewrite Hsize. reflexivity.
Defined.

(** C6 at [r1], last modified on May 1, against a watermark of April 15. *)
Lemma record_updated_fires_witness :
  trigger (recipe (enter updated_recipe t_april_15)) = Some "airtable_record_updated" /\
  (record_id rec_r1_dated ∉ processed_records (enter updated_recipe t_april_15)) /\
  Post (webhook_url updated_recipe) rec_r1_dated
    ∈ events (process_record fromisoformat_basic post_ok rec_r1_dated
                (enter updated_recipe t_april_15)).
Proof.
  assert (record_id rec_r1_dated ∉ processed_records (enter updated_recipe t_april_15))
    as H by apply not_elem_of_empty.
  split_and!; [reflexivity | exact H |].
  apply (record_updated_fires fromisoformat_basic post_ok rec_r1_dated
           (enter updated_recipe t_april_15) eq_refl H).
  exists "2024-05-01T12:00:00+02:00", 65063736000%Z, (Some 120%Z).
  split_and!; [reflexivity | discriminate | reflexivity | reflexivity].
Defined.



(** C9 at a recipe that is created, started, asked to stop and whose
    thread then leaves the loop. *)
Lemma status_running_forever_witness :
  recipes (apply_ops fromisoformat_basic (mk_manager [] [])
             [Create urgent_recipe; StartAll]) !! 0%nat
  = Some (start_recipe urgent_recipe) /\
  is_thread_running (start_recipe urgent_recipe) = true /\
  exists r',
    recipes (apply_ops fromisoformat_basic
               (apply_ops fromisoformat_basic (mk_manager [] [])
                  [Create urgent_recipe; StartAll])
               [ThreadEnter 0 t_april_15; RequestStop 0;
                ThreadCycle 0 (cycle_of [])]) !! 0%nat = Some r' /\
    is_thread_running r' = true.
Proof.
  split_and!; [reflexivity | reflexivity |].
  destruct (status_running_forever fromisoformat_basic
              (apply_ops fromisoformat_basic (mk_manager [] [])
                 [Create urgent_recipe; StartAll])
              0%nat (start_recipe urgent_recipe)
              [ThreadEnter 0 t_april_15; RequestStop 0; ThreadCycle 0 (cycle_of [])]
              eq_refl eq_refl) as [(r' & Hr' & Hflag & _) _].
  exists r'. split; assumption.
Defined.

(** * Further properties of the runner *)

Section RunnerMore.

Variable fromisoformat : string -> option (Z * option Z).

(** One evaluation posts at most once, and only the record evaluated. *)
Lemma evaluate_record_dispatches post r w :
  dispatches (events (evaluate_record fromisoformat post r w)) = [] \/
  dispatches (events (evaluate_record fromisoformat post r w)) = [record_id r].
Proof.
  unfold evaluate_record, parse_record_time, send_webhook, getitem, text_in.
  unfold_m.
  repeat (case_match; simplify_eq/=; auto).
Qed.

Lemma process_record_dispatches post r w :
  dispatches (events (process_record fromisoformat post r w)) = [] \/
  dispatches (events (process_record fromisoformat post r w)) = [record_id r] /\
  record_id r ∉ processed_records w.
Proof.
  destruct (decide (record_id r ∈ processed_records w)) as [Hin|Hin].
  - left. by rewrite process_record_seen.
  - rewrite process_record_unseen_events by done. simpl.
    destruct (evaluate_record_dispatches post r w) as [->| ->]; auto.
Qed.

(** The dispatches of the [for] loop: no identifier twice, in the order of
    the snapshot, and none that was already seen when the loop began. *)
Lemma for_records_dispatches env n rs w :
  let ds := dispatches (events (for_records fromisoformat env n rs w)) in
  NoDup ds /\ ds `sublist_of` map record_id rs /\
  forall i, i ∈ ds -> i ∉ processed_records w.
Proof.
  revert n w. induction rs as [|r rs IH]; intros n w; cbv zeta.
  - simpl. split_and!; [constructor | done | set_solver].
  - destruct (stop_hook_ok env n w) as (w1 & Hh & _ & _ & Hp1).
    rewrite (for_records_cons fromisoformat env n r rs w w1 Hh).
    pose proof (process_record_dispatches (post env) r w1) as Hd.
    pose proof (process_record_delta fromisoformat (post env) r w1 "") as Hdelta.
    rewrite Hp1 in Hd.
    destruct (process_record fromisoformat (post env) r w1) as [[] w2 evs2|e w2 evs2];
      cbn [events] in Hd.
    + destruct Hdelta as (_ & _ & Hp2 & _). rewrite Hp1 in Hp2.
      specialize (IH (S n) w2). cbv zeta in IH. destruct IH as (Hnd & Hsub & Hfresh).
      assert (dispatches (events
                match for_records fromisoformat env (S n) rs w2 with
                | Ok a w3 evs3 => Ok a w3 (evs2 ++ evs3)
                | Raise e w3 evs3 => Raise e w3 (evs2 ++ evs3)
                end)
              = (dispatches evs2
                 ++ dispatches (events (for_records fromisoformat env (S n) rs w2)))%list)
        as ->.
      { destruct (for_records fromisoformat env (S n) rs w2); simpl;
          apply dispatches_app. }
      assert (forall i, i ∈ dispatches (events (for_records fromisoformat env (S n) rs w2)) ->
                        i <> record_id r /\ i ∉ processed_records w) as Hrest.
      { intros i Hi. specialize (Hfresh i Hi). rewrite Hp2 in Hfresh. set_solver. }
      destruct Hd as [Hd | [Hd Hunseen]].
      * rewrite Hd. simpl.
        split_and!; [done | by apply sublist_cons | intros i Hi; by apply Hrest].
      * rewrite Hd. simpl. split_and!.
        -- constructor; [| done]. intros Hi. by destruct (Hrest _ Hi).
        -- by apply sublist_skip.
        -- intros i [-> | Hi]%elem_of_cons; [done | by apply Hrest].
    + cbn [events]. destruct Hd as [Hd | [Hd Hunseen]].
      * rewrite Hd. simpl.
        split_and!; [constructor | apply sublist_nil_l | set_solver].
      * rewrite Hd. simpl. split_and!.
        -- apply NoDup_singleton.
        -- apply sublist_skip, sublist_nil_l.
        -- intros i ->%list_elem_of_singleton. done.
Qed.


Lemma loop_body_dispatches env w :
  let ds := dispatches (events (loop_body fromisoformat env w)) in
  NoDup ds /\ ds `sublist_of` snapshot_ids env /\
  forall i, i ∈ ds -> i ∉ processed_records w.
Proof.
  cbv zeta. unfold snapshot_ids. destruct (fetch env) as [rs|] eqn:Hf.
  2: { unfold loop_body, get_all. rewrite Hf. simpl.
       split_and!; [constructor | done | set_solver]. }
  rewrite (loop_body_unfold fromisoformat env w rs Hf).
  pose proof (for_records_dispatches env 0 rs w) as Hd. cbv zeta in Hd.
  destruct (for_records fromisoformat env 0 rs w) as [[] w1 evs1|e w1 evs1];
    cbn [events] in Hd.
  - assert (dispatches (Fetched (length rs) :: evs1 ++ [Sleep 10])
            = dispatches evs1) as Hcont.
    { change (dispatches (Fetched (length rs) :: evs1 ++ [Sleep 10]))
        with (dispatches (evs1 ++ [Sleep 10])).
      rewrite dispatches_app. apply app_nil_r. }
    cbv zeta. destruct (is_running (recipe (close_cycle env (length rs) w1)));
      cbn [events]; [by rewrite Hcont | done].
  - done.
Qed.

(** The dispatches of a whole run from any state: no identifier twice,
    none that was already seen at the start, none that was not fetched. *)
Lemma while_true_dispatches envs w :
  let ds := dispatches (run_trace (while_true fromisoformat envs w)) in
  NoDup ds /\
  forall i, i ∈ ds -> (i ∉ processed_records w) /\ i ∈ fetched_ids envs.
Proof.
  revert w. induction envs as [|env envs IH]; intros w; cbv zeta.
  - simpl. split; [constructor | set_solver].
  - cbn [while_true].
    pose proof (loop_body_dispatches env w) as (Hnd & Hsub & Hfresh).
    pose proof (loop_body_delta fromisoformat env w "") as Hdelta.
    assert (forall i, i ∈ dispatches (events (loop_body fromisoformat env w)) ->
                      (i ∉ processed_records w) /\ i ∈ fetched_ids (env :: envs)) as Hhere.
    { intros i Hi. split; [by apply Hfresh |].
      unfold fetched_ids. simpl. apply elem_of_app. left.
      exact (elem_of_sublist _ _ _ Hi Hsub). }
    destruct (loop_body fromisoformat env w) as [[] w1 evs1|e w1 evs1];
      cbn [events] in *; cbn [run_trace after_cycle].
    + destruct Hdelta as (_ & _ & _ & _ & Hp & _).
      specialize (IH w1) as (Hnd' & Hrest).
      rewrite dispatches_app. split.
      * apply NoDup_app. split_and!; [done | | done].
        intros i Hi Hi'. destruct (Hrest i Hi') as (Hout & _).
        apply Hout. rewrite Hp, elem_of_union, elem_of_list_to_set. left.
        exact (elem_of_sublist _ _ _ Hi Hsub).
      * intros i [Hi | Hi]%elem_of_app; [by apply Hhere |].
        destruct (Hrest i Hi) as (Hout & Hin). split.
        -- intros Hw. apply Hout. rewrite Hp. set_solver.
        -- unfold fetched_ids in *. simpl. apply elem_of_app. by right.
    + by split.
    + by split.
Qed.


(** X1: in one run no record identifier is dispatched twice, whatever the
    fetches return and however the run ends, and only identifiers that a
    fetch returned are dispatched. *)
Theorem dispatch_at_most_once rcp start_time envs :
  let ds := dispatches (run_trace (execute_recipe fromisoformat rcp start_time envs)) in
  NoDup ds /\ forall i, i ∈ ds -> i ∈ fetched_ids envs.
Proof.
  cbv zeta. unfold execute_recipe.
  destruct (while_true_dispatches envs (enter rcp start_time)) as (Hnd & Hin).
  split; [done |]. intros i Hi. by destruct (Hin i Hi).
Qed.

(** X2: once a cycle that returned a record identifier has completed, no
    later cycle dispatches that identifier, whatever the record then holds:
    a record changed after it was first seen is never reported. *)
Theorem seen_record_never_dispatched rcp start_time pre more i :
  run_status (execute_recipe fromisoformat rcp start_time pre) = Polling ->
  i ∈ fetched_ids pre ->
  exists later,
    dispatches (run_trace (execute_recipe fromisoformat rcp start_time (pre ++ more)))
    = (dispatches (run_trace (execute_recipe fromisoformat rcp start_time pre))
       ++ later)%list /\
    i ∉ later.
Proof.
  unfold execute_recipe. intros Hst Hi.
  destruct (while_true_app fromisoformat pre more (enter rcp start_time) Hst)
    as (Hn & ->).
  pose proof (while_true_delta fromisoformat pre (enter rcp start_time) "")
    as (_ & _ & _ & Hd).
  rewrite Hst, Hn in Hd. destruct Hd as (Hseen & _).
  rewrite firstn_all in Hseen.
  set (w := run_world (while_true fromisoformat pre (enter rcp start_time))) in *.
  exists (dispatches (run_trace (while_true fromisoformat more w))).
  split; [simpl; apply dispatches_app |].
  intros Hlater.
  destruct (while_true_dispatches more w) as (_ & Hfresh).
  destruct (Hfresh i Hlater) as (Hout & _). apply Hout.
  rewrite Hseen. set_solver.
Qed.

(** A record not yet seen whose ['Last Modified'] is truthy but is not a
    string, or is a string that [fromisoformat] rejects, makes
    [process_record] raise before anything is dispatched. *)
Lemma process_record_malformed post r w v :
  record_id r ∉ processed_records w ->
  fields r !! "Last Modified" = Some v ->
  truthy v = true ->
  (forall s, v = VStr s -> fromisoformat s = None) ->
  process_record fromisoformat post r w
  = Raise (match v with VStr _ => ValueError | _ => TypeError end) w
          [Processing (record_id r)].
Proof.
  intros Hunseen Hlm Htruthy Hbad.
  rewrite process_record_unseen by done.
  unfold evaluate_record, parse_record_time. rewrite Hlm. simpl. rewrite Htruthy.
  unfold_m.
  destruct v as [|b|z|s|l]; simpl in *; try done.
  by rewrite (Hbad s eq_refl).
Qed.


Lemma for_records_app env n rs1 rs2 w :
  for_records fromisoformat env n (rs1 ++ rs2) w
  = match for_records fromisoformat env n rs1 w with
    | Ok _ w1 evs1 =>
        match for_records fromisoformat env (n + length rs1) rs2 w1 with
        | Ok a w2 evs2 => Ok a w2 (evs1 ++ evs2)
        | Raise e w2 evs2 => Raise e w2 (evs1 ++ evs2)
        end
    | Raise e w1 evs1 => Raise e w1 evs1
    end.
Proof.
  revert n w. induction rs1 as [|r rs1 IH]; intros n w.
  - simpl. rewrite Nat.add_0_r. by destruct (for_records fromisoformat env n rs2 w).
  - destruct (stop_hook_ok env n w) as (w1 & Hh & _).
    rewrite <- app_comm_cons.
    rewrite !(for_records_cons fromisoformat env n r _ w w1 Hh).
    destruct (process_record fromisoformat (post env) r w1) as [[] w2 evs2|]; [| done].
    rewrite IH. simpl. rewrite <- Nat.add_succ_comm.
    destruct (for_records fromisoformat env (S n) rs1 w2) as [[] w3 evs3|]; [| done].
    change (S n + length rs1)%nat with (S (n + length rs1)).
    destruct (for_records fromisoformat env (S (n + length rs1)) rs2 w3);
      by rewrite <- ?app_assoc.
Qed.

(** X3: a record not yet seen whose ['Last Modified'] is truthy but is
    not a string, or is a string that [fromisoformat] rejects, ends the run
    under every trigger: when the cycles before completed and the records
    before it in the snapshot were processed, the exception ([TypeError],
    [ValueError]) leaves [execute_recipe] right after the record is
    announced, with the record not marked as processed; the records after
    it and all later cycles are never processed. *)
Theorem malformed_timestamp_ends_run rcp start_time pre env rest
    (rs1 : list record) r (rs2 : list record) v :
  let before := execute_recipe fromisoformat rcp start_time pre in
  let r' := execute_recipe fromisoformat rcp start_time (pre ++ env :: rest) in
  run_status before = Polling ->
  fetch env = Some (rs1 ++ r :: rs2)%list ->
  raised (for_records fromisoformat env 0 rs1 (run_world before)) = None ->
  record_id r ∉ processed_records (run_world before) ->
  record_id r ∉ map record_id rs1 ->
  fields r !! "Last Modified" = Some v ->
  truthy v = true ->
  (forall s, v = VStr s -> fromisoformat s = None) ->
  run_status r' = Raised (match v with VStr _ => ValueError | _ => TypeError end) /\
  run_cycles r' = length pre /\
  (record_id r ∉ processed_records (run_world r')) /\
  run_trace r'
  = (run_trace before
     ++ Fetched (length (rs1 ++ r :: rs2)%list)
        :: events (for_records fromisoformat env 0 rs1 (run_world before))
        ++ [Processing (record_id r)])%list.
Proof.
  intros before r' Hst Hf Hpre Hunseen Hfresh Hlm Htruthy Hbad.
  subst before r'. unfold execute_recipe in *.
  destruct (while_true_app fromisoformat pre (env :: rest) (enter rcp start_time) Hst)
    as (Hn & ->).
  set (w := run_world (while_true fromisoformat pre (enter rcp start_time))) in *.
  cbn [while_true].
  rewrite (loop_body_unfold fromisoformat env w _ Hf).
  rewrite for_records_app.
  pose proof (for_records_delta fromisoformat env 0 rs1 w "") as Hd.
  destruct (for_records fromisoformat env 0 rs1 w) as [[] w1 evs1|] eqn:Hfor1;
    [| done].
  destruct (stop_hook_ok env (0 + length rs1) w1) as (w1' & Hh & _ & _ & Hp1').
  rewrite (for_records_cons fromisoformat env _ r rs2 w1 w1' Hh).
  assert (record_id r ∉ processed_records w1') as Hunseen'.
  { rewrite Hp1'. destruct Hd as (_ & _ & -> & _).
    rewrite elem_of_union, elem_of_list_to_set. by intros [|]. }
  rewrite (process_record_malformed (post env) r w1' v Hunseen' Hlm Htruthy Hbad).
  simpl. split_and!; [done | lia | done | done].
Qed.

End RunnerMore.

(** * The runner does not look at the delivery status *)

Section Status.

Variable fromisoformat : string -> option (Z * option Z).

Lemma evaluate_record_agree p1 p2 r w :
  (p1 r = None <-> p2 r = None) ->
  agree (evaluate_record fromisoformat p1 r w) (evaluate_record fromisoformat p2 r w).
Proof.
  intros Hsf.
  unfold evaluate_record, parse_record_time, send_webhook, getitem, text_in.
  unfold_m.
  destruct (p1 r) as [c1|] eqn:H1, (p2 r) as [c2|] eqn:H2;
    [| by destruct Hsf as [_ Hsf]; specialize (Hsf eq_refl)
     | by destruct Hsf as [Hsf _]; specialize (Hsf eq_refl) |];
    repeat (case_match; simplify_eq/=; try done).
Qed.

Lemma process_record_agree p1 p2 r w :
  (p1 r = None <-> p2 r = None) ->
  agree (process_record fromisoformat p1 r w) (process_record fromisoformat p2 r w).
Proof.
  intros Hsf.
  destruct (decide (record_id r ∈ processed_records w)) as [Hin|Hin].
  - by rewrite !process_record_seen.
  - rewrite !process_record_unseen by done.
    pose proof (evaluate_record_agree p1 p2 r w Hsf) as Ha.
    pose proof (evaluate_record_frame fromisoformat p1 r w) as [Hw1 _].
    pose proof (evaluate_record_frame fromisoformat p2 r w) as [Hw2 _].
    destruct (evaluate_record fromisoformat p1 r w),
             (evaluate_record fromisoformat p2 r w); simpl in *; try done.
    + destruct Ha as (_ & _ & Hevs). split_and!; try done.
      f_equal. exact Hevs.
    + destruct Ha as (-> & _ & Hevs). split_and!; try done.
      f_equal. exact Hevs.
Qed.

Lemma for_records_agree e1 e2 n rs w :
  same_but_status e1 e2 ->
  agree (for_records fromisoformat e1 n rs w) (for_records fromisoformat e2 n rs w).
Proof.
  intros (Hf & Hs & Hsf). revert n w.
  induction rs as [|r rs IH]; intros n w; [done |].
  destruct (stop_hook_ok e1 n w) as (w1 & Hh & _).
  assert (stop_hook e2 n w = Ok tt w1 []) as Hh2.
  { rewrite <- Hh. unfold stop_hook. by rewrite Hs. }
  rewrite (for_records_cons fromisoformat e1 n r rs w w1 Hh).
  rewrite (for_records_cons fromisoformat e2 n r rs w w1 Hh2).
  pose proof (process_record_agree (post e1) (post e2) r w1 (Hsf r)) as Ha.
  destruct (process_record fromisoformat (post e1) r w1) as [[] w2 evs2|],
           (process_record fromisoformat (post e2) r w1) as [[] w2' evs2'|];
    simpl in Ha; try done.
  destruct Ha as (_ & <- & Hevs).
  specialize (IH (S n) w2).
  destruct (for_records fromisoformat e1 (S n) rs w2),
           (for_records fromisoformat e2 (S n) rs w2); simpl in *; try done.
  - destruct IH as (-> & -> & Hevs'). split_and!; try done.
    by rewrite !fmap_app, Hevs, Hevs'.
  - destruct IH as (-> & -> & Hevs'). split_and!; try done.
    by rewrite !fmap_app, Hevs, Hevs'.
Qed.

Lemma loop_body_agree e1 e2 w :
  same_but_status e1 e2 ->
  agree (loop_body fromisoformat e1 w) (loop_body fromisoformat e2 w).
Proof.
  intros Hsame. pose proof Hsame as (Hf & Hs & Hsf).
  destruct (fetch e1) as [rs|] eqn:Hf1.
  2: { unfold loop_body, get_all. by rewrite <- Hf, Hf1. }
  rewrite (loop_body_unfold fromisoformat e1 w rs Hf1).
  rewrite (loop_body_unfold fromisoformat e2 w rs) by congruence.
  pose proof (for_records_agree e1 e2 0 rs w Hsame) as Ha.
  destruct (for_records fromisoformat e1 0 rs w) as [[] w1 evs1|],
           (for_records fromisoformat e2 0 rs w) as [[] w1' evs1'|];
    simpl in Ha; try done.
  - destruct Ha as (_ & <- & Hevs). cbv zeta.
    assert (close_cycle e2 (length rs) w1 = close_cycle e1 (length rs) w1) as ->.
    { unfold close_cycle, stop_tail. by rewrite Hs. }
    destruct (is_running (recipe (close_cycle e1 (length rs) w1))); cbn [agree];
      split_and!; try done; by rewrite !fmap_cons, ?fmap_app, Hevs.
  - destruct Ha as (-> & <- & Hevs). cbn [agree]. by rewrite !fmap_cons, Hevs.
Qed.

(** X4: the status codes that the notifier returns change nothing but the
    log lines that quote them: two runs over the same fetches and stop
    requests, with notifiers that raise on the same payloads, end the same
    way, after as many cycles, in the same state, with the same events up
    to the status codes, and dispatch the same records. *)
Theorem status_code_ignored rcp start_time envs1 envs2 :
  Forall2 same_but_status envs1 envs2 ->
  let r1 := execute_recipe fromisoformat rcp start_time envs1 in
  let r2 := execute_recipe fromisoformat rcp start_time envs2 in
  run_status r1 = run_status r2 /\ run_cycles r1 = run_cycles r2 /\
  run_world r1 = run_world r2 /\
  erase_status <$> run_trace r1 = erase_status <$> run_trace r2 /\
  dispatches (run_trace r1) = dispatches (run_trace r2).
Proof.
  intros Hall. cbv zeta. unfold execute_recipe.
  assert (forall evs evs', erase_status <$> evs = erase_status <$> evs' ->
                           dispatches evs = dispatches evs') as Hdisp.
  { induction evs as [|e evs IH]; intros [|e' evs'] Heq; simplify_eq/=; [done |].
    specialize (IH evs' H0). destruct e, e'; simplify_eq/=; by rewrite ?IH. }
  generalize (enter rcp start_time).
  induction Hall as [|e1 e2 envs1 envs2 Hsame Hall IH]; intros w; [done |].
  cbn [while_true].
  pose proof (loop_body_agree e1 e2 w Hsame) as Ha.
  destruct (loop_body fromisoformat e1 w) as [[] w1 evs1|],
           (loop_body fromisoformat e2 w) as [[] w1' evs1'|];
    cbn [agree] in Ha; try done; try (by destruct Ha as (? & _)).
  - destruct Ha as (_ & <- & Hevs). specialize (IH w1) as (H1 & H2 & H3 & H4 & H5).
    cbn [after_cycle run_status run_cycles run_world run_trace].
    split_and!; try done.
    + by rewrite H2.
    + by rewrite !fmap_app, Hevs, H4.
    + by rewrite !dispatches_app, (Hdisp _ _ Hevs), H5.
  - destruct Ha as (_ & <- & Hevs).
    cbn [run_status run_cycles run_world run_trace]. split_and!; auto.
  - destruct Ha as (-> & <- & Hevs).
    cbn [run_status run_cycles run_world run_trace]. split_and!; auto.
Qed.

End Status.

(** * Further properties of the manager *)

Lemma start_each_lengths ts rs :
  length (recipes (out_manager (start_each ts rs))) = length rs /\
  length (threads (out_manager (start_each ts rs))) = length ts.
Proof.
  revert rs. induction ts as [|t ts IH]; intros [|r rs]; try done.
  cbn [start_each]. destruct (IH rs) as [Hr Ht].
  destruct (is_running r); simpl; [by rewrite Hr, Ht |].
  destruct (thread_start t); simpl; [by rewrite Hr, Ht | done].
Qed.

Lemma start_each_raises ts rs :
  length ts = length rs ->
  (out_exn (start_each ts rs) = None <->
   Forall2 (fun t r => is_running r = false -> t = Unstarted) ts rs) /\
  (out_exn (start_each ts rs) = None \/
   out_exn (start_each ts rs) = Some RuntimeError).
Proof.
  revert rs. induction ts as [|t ts IH]; intros [|r rs] Hlen; simplify_eq/=.
  { split; [| by left]. split; [constructor | done]. }
  destruct (IH rs Hlen) as [Hiff Hor].
  destruct (is_running r) eqn:Hrun; simpl.
  - split; [| done]. rewrite Hiff. split.
    + intros H. constructor; [congruence | done].
    + by inversion 1.
  - destruct t; simpl.
    + split; [| done]. rewrite Hiff. split.
      * intros H. by constructor.
      * by inversion 1.
    + split; [| by right]. split; [done |]. inversion 1; subst.
      by specialize (H3 Hrun).
    + split; [| by right]. split; [done |]. inversion 1; subst.
      by specialize (H3 Hrun).
    + split; [| by right]. split; [done |]. inversion 1; subst.
      by specialize (H3 Hrun).
Qed.

Lemma start_all_ok_idle m :
  paired m -> out_exn (start_all m) = None <-> idle_unstarted m.
Proof.
  intros Hlen. unfold start_all, idle_unstarted.
  destruct (forallb is_running (recipes m)) eqn:Hall.
  - simpl. split; [intros _ | done].
    apply Forall2_same_length_lookup_2; [done |].
    intros i t r _ Hr Hidle. exfalso.
    rewrite forallb_forall in Hall.
    assert (is_running r = true) as Hrun.
    { apply Hall. apply list_elem_of_In. by eapply list_elem_of_lookup_2. }
    congruence.
  - by apply start_each_raises.
Qed.

(** X5: in a manager whose lists are paired, [start_all] raises exactly
    when some recipe not marked running has a thread that was already
    started, and what it raises is the [RuntimeError] of [Thread.start]. *)
Theorem start_all_raises_iff m :
  paired m ->
  (out_exn (start_all m) = None <-> idle_unstarted m) /\
  (out_exn (start_all m) = None \/ out_exn (start_all m) = Some RuntimeError).
Proof.
  intros Hlen. split; [by apply start_all_ok_idle |].
  unfold start_all.
  destruct (forallb is_running (recipes m)); [by left |].
  by apply start_each_raises.
Qed.

(** X6: a second [start_all] right after a successful one starts nothing
    and only logs "All recipes are already running". *)
Theorem start_all_twice m :
  idle_unstarted m ->
  let m' := out_manager (start_all m) in
  start_all m' = mk_outcome m' [AllAlreadyRunning] None.
Proof.
  intros Hidle m'.
  assert (forallb is_running (recipes m') = true) as Hall'.
  { subst m'. unfold start_all.
    destruct (forallb is_running (recipes m)) eqn:Hall; [done |].
    rewrite (start_each_spec _ _ Hidle). simpl.
    rewrite forallb_forall. intros r [r0 [<- _]]%in_map_iff.
    by destruct (is_running r0) eqn:Hrun. }
  clearbody m'. unfold start_all. by rewrite Hall'.
Qed.

(** [start_all] leaves alone the thread of a recipe that is marked
    running, even when it raises further on. *)
Lemma start_each_running_thread ts rs i t r :
  ts !! i = Some t -> rs !! i = Some r -> is_running r = true ->
  threads (out_manager (start_each ts rs)) !! i = Some t /\
  recipes (out_manager (start_each ts rs)) !! i = Some r.
Proof.
  revert rs i. induction ts as [|t0 ts IH]; intros [|r0 rs] [|i] Ht Hr Hrun;
    simplify_eq/=.
  - by rewrite Hrun.
  - destruct (is_running r0); simpl; [by apply IH |].
    destruct (thread_start t0); simpl; [by apply IH | done].
Qed.

Lemma start_each_running_flagged ts rs :
  Forall2 (fun t r => t <> Unstarted \/ is_running r = true ->
                      is_thread_running r = true) ts rs ->
  Forall2 (fun t r => t <> Unstarted \/ is_running r = true ->
                      is_thread_running r = true)
          (threads (out_manager (start_each ts rs)))
          (recipes (out_manager (start_each ts rs))).
Proof.
  induction 1 as [|t r ts rs Hr Hrs IH]; [constructor |].
  cbn [start_each]. destruct (is_running r) eqn:Hrun; simpl.
  - constructor; [by rewrite Hrun | done].
  - destruct (thread_start t); simpl; constructor; try done.
    by rewrite Hrun.
Qed.

Section ProgramMore.

Variable fromisoformat : string -> option (Z * option Z).

Lemma apply_op_paired m o : paired m -> paired (apply_op fromisoformat m o).
Proof.
  unfold paired. intros Hlen.
  destruct o as [r | | | i start_time | i env | i]; simpl.
  - unfold add_recipe. simpl. rewrite !length_app. simpl. lia.
  - unfold start_all. destruct (forallb is_running (recipes m)); [done |].
    destruct (start_each_lengths (threads m) (recipes m)) as [-> ->]. done.
  - done.
  - unfold thread_enter. repeat case_match; simpl; by rewrite ?length_insert.
  - unfold thread_cycle. repeat case_match; simpl; by rewrite ?length_insert.
  - unfold request_stop. repeat case_match; simpl; by rewrite ?length_insert.
Qed.

(** X7: whatever the commands, thread steps and stop requests, the
    manager holds exactly one thread per recipe, so the [zip] of
    [start_all] never leaves a recipe out. *)
Theorem threads_paired os :
  let m := apply_ops fromisoformat (mk_manager [] []) os in
  length (threads m) = length (recipes m) /\
  length (zip (threads m) (recipes m)) = length (recipes m).
Proof.
  cbv zeta.
  assert (forall m, paired m -> paired (apply_ops fromisoformat m os)) as H.
  { induction os as [|o os IH]; intros m Hm; [done |].
    unfold apply_ops. simpl. apply IH. by apply apply_op_paired. }
  specialize (H (mk_manager [] []) eq_refl). unfold paired in H.
  split; [done |]. rewrite length_zip. lia.
Qed.

(** X8: as long as nothing outside the program requests a stop,
    [start_all] never raises, whatever was created and started before and
    however far the threads have run or died. *)
Theorem start_all_never_raises os :
  Forall own_step os ->
  out_exn (start_all (apply_ops fromisoformat (mk_manager [] []) os)) = None.
Proof.
  intros Hown.
  pose proof (apply_ops_idle_unstarted fromisoformat os Hown) as Hidle.
  unfold start_all.
  destruct (forallb is_running (recipes _)); [done |].
  by rewrite (start_each_spec _ _ Hidle).
Qed.

(** X9: a runner that dies of an exception is never restarted: its
    thread is finished, its recipe still marked running and labelled
    "running", and [start_all] leaves both as they are. *)
Theorem dead_runner_stays_running m i r lct seen env e :
  threads m !! i = Some (Looping lct seen) ->
  recipes m !! i = Some r ->
  is_running r = true ->
  is_thread_running r = true ->
  stop_at env = None ->
  raised (loop_body fromisoformat env (mk_world r lct seen)) = Some e ->
  let m' := thread_cycle fromisoformat i env m in
  exists r',
    threads m' !! i = Some Finished /\
    recipes m' !! i = Some r' /\
    is_running r' = true /\ status_label r' = "running" /\
    threads (out_manager (start_all m')) !! i = Some Finished /\
    recipes (out_manager (start_all m')) !! i = Some r'.
Proof.
  intros Ht Hr Hrun Hflag Hs Hraised m'. subst m'. unfold thread_cycle.
  rewrite Ht, Hr.
  pose proof (loop_body_no_stop_is_running fromisoformat env (mk_world r lct seen) Hs)
    as Hkeep.
  pose proof (loop_body_delta fromisoformat env (mk_world r lct seen) "") as Hd.
  destruct (loop_body fromisoformat env (mk_world r lct seen)) as [|e' w' evs];
    [done |].
  simpl in Hkeep. destruct Hd as (Htouch & _).
  assert (is_running (recipe w') = true) as Hrun' by congruence.
  assert (threads
            (mk_manager (<[i:=recipe w']> (recipes m)) (<[i:=Finished]> (threads m)))
            !! i = Some Finished) as Ht'.
  { simpl. apply list_lookup_insert_eq. by eapply lookup_lt_Some. }
  assert (recipes
            (mk_manager (<[i:=recipe w']> (recipes m)) (<[i:=Finished]> (threads m)))
            !! i = Some (recipe w')) as Hr'.
  { simpl. apply list_lookup_insert_eq. by eapply lookup_lt_Some. }
  exists (recipe w'). split_and!; try done.
  - unfold status_label. simpl in Htouch.
    by rewrite (touched_is_thread_running _ _ Htouch), Hflag.
  - unfold start_all. destruct (forallb is_running _); [done |].
    by apply (start_each_running_thread _ _ i Finished (recipe w')).
  - unfold start_all. destruct (forallb is_running _); [done |].
    by apply (start_each_running_thread _ _ i Finished (recipe w')).
Qed.

Lemma apply_op_running_flagged m o :
  running_flagged m -> running_flagged (apply_op fromisoformat m o).
Proof.
  unfold running_flagged. intros Hinv.
  destruct o as [r | | | i start_time | i env | i]; simpl.
  - unfold add_recipe. simpl. apply Forall2_app; [done |].
    constructor; [| constructor]. by intros [|].
  - unfold start_all. destruct (forallb is_running (recipes m)); [done |].
    by apply start_each_running_flagged.
  - done.
  - unfold thread_enter.
    destruct (threads m !! i) as [[| | |]|] eqn:Ht; try done.
    destruct (recipes m !! i) as [r|] eqn:Hr; [| done].
    simpl. apply Forall2_insert; [done |]. intros _.
    apply (Forall2_lookup_lr _ _ _ _ _ _ Hinv Ht Hr). by left.
  - unfold thread_cycle.
    destruct (threads m !! i) as [[| |lct seen|]|] eqn:Ht; try done.
    destruct (recipes m !! i) as [r|] eqn:Hr; [| done].
    assert (is_thread_running r = true) as Hflag.
    { apply (Forall2_lookup_lr _ _ _ _ _ _ Hinv Ht Hr). by left. }
    pose proof (loop_body_delta fromisoformat env (mk_world r lct seen) "") as Hd.
    destruct (loop_body fromisoformat env (mk_world r lct seen))
      as [[] w' evs|e w' evs]; simpl;
      [destruct Hd as (_ & Htouch & _) | destruct Hd as (_ & Htouch & _)
      | destruct Hd as (Htouch & _)];
      (apply Forall2_insert; [done |]); intros _;
      simpl in Htouch;
      change (is_thread_running (set_is_running false (recipe w'))) with
        (is_thread_running (recipe w'));
      by rewrite (touched_is_thread_running _ _ Htouch).
  - unfold request_stop.
    destruct (recipes m !! i) as [r|] eqn:Hr; [| done].
    simpl. destruct (threads m !! i) as [t|] eqn:Ht.
    + rewrite <- (list_insert_id (threads m) i t Ht).
      apply Forall2_insert; [done |]. intros [Hstarted | Hfalse]; [| done].
      apply (Forall2_lookup_lr _ _ _ _ _ _ Hinv Ht Hr). by left.
    + apply Forall2_length in Hinv.
      apply lookup_ge_None in Ht. apply lookup_lt_Some in Hr. lia.
Qed.

(** X10: whenever [start_all] returns without raising, [log_status]
    labels every managed recipe "running", whatever commands, thread steps
    and stop requests came before. *)
Theorem status_after_start os :
  let m := apply_ops fromisoformat (mk_manager [] []) os in
  out_exn (start_all m) = None ->
  log_status (out_manager (start_all m))
  = map (fun r => StatusLine (name r) (webhook_url r) "running") (recipes m).
Proof.
  intros m Hok.
  assert (running_flagged m /\ paired m) as [Hflag Hpair].
  { subst m. clear Hok.
    assert (forall m0, running_flagged m0 /\ paired m0 ->
              running_flagged (apply_ops fromisoformat m0 os) /\
              paired (apply_ops fromisoformat m0 os)) as H.
    { induction os as [|o os IH]; intros m0 [H1 H2]; [done |].
      unfold apply_ops. simpl. apply IH.
      split; [by apply apply_op_running_flagged | by apply apply_op_paired]. }
    apply H. split; [constructor | done]. }
  clearbody m.
  assert (idle_unstarted m) as Hidle.
  { by apply (start_all_ok_idle m Hpair). }
  revert Hok. unfold start_all, log_status.
  destruct (forallb is_running (recipes m)) eqn:Hall; simpl; intros _.
  - apply map_ext_in. intros r Hin. unfold status_label.
    rewrite forallb_forall in Hall.
    apply list_elem_of_In, list_elem_of_lookup in Hin as [i Hi].
    destruct (lookup_lt_is_Some_2 (threads m) i) as [t Ht].
    { rewrite Hpair. by eapply lookup_lt_Some. }
    rewrite (Forall2_lookup_lr _ _ _ _ _ _ Hflag Ht Hi); [done |].
    right. apply Hall. apply list_elem_of_In. by eapply list_elem_of_lookup_2.
  - rewrite (start_each_spec _ _ Hidle). simpl. rewrite map_map.
    apply map_ext_in. intros r Hin. unfold status_label.
    destruct (is_running r) eqn:Hrun; [| done].
    apply list_elem_of_In, list_elem_of_lookup in Hin as [i Hi].
    destruct (lookup_lt_is_Some_2 (threads m) i) as [t Ht].
    { rewrite Hpair. by eapply lookup_lt_Some. }
    rewrite (Forall2_lookup_lr _ _ _ _ _ _ Hflag Ht Hi); [done |]. by right.
Qed.

End ProgramMore.

(** * Persistence *)


Lemma save_recipe_dom r d :
  save_recipe r = inr d ->
  dom d = list_to_set ("last_execution_time" :: INIT_PARAMS).
Proof.
  unfold save_recipe. destruct (last_execution_time r); [done |].
  intros [= <-]. rewrite !dom_insert_L, dom_empty_L. unfold INIT_PARAMS. simpl.
  set_solver.
Qed.

Lemma save_recipe_extra_key r d :
  save_recipe r = inr d -> ~ dom d ⊆ list_to_set INIT_PARAMS.
Proof.
  intros Hsave. rewrite (save_recipe_dom r d Hsave). intros Hsub.
  assert ("last_execution_time" ∈ (list_to_set INIT_PARAMS : gset string)) as Hin.
  { apply Hsub. set_solver. }
  revert Hin. unfold INIT_PARAMS.
  rewrite elem_of_list_to_set, !elem_of_cons, elem_of_nil.
  intros H. repeat (destruct H as [H|H]; [discriminate |]). done.
Qed.

(** X11: what [save_recipe] writes can never be loaded back by
    [load_recipe]: the object holds the key [last_execution_time], which is
    no parameter of [Automation.__init__], so the call raises [TypeError]. *)
Theorem saved_recipe_does_not_load r d :
  save_recipe r = inr d -> load_recipe d = inl TypeError.
Proof.
  intros Hsave. unfold load_recipe.
  rewrite bool_decide_eq_false_2; [done |].
  by apply (save_recipe_extra_key r).
Qed.

(** X12: with the key [last_execution_time] removed, the object written
    for a recipe loads back to that recipe, as [__init__] leaves it. *)
Theorem saved_recipe_loads_without_time r d :
  save_recipe r = inr d ->
  load_recipe (delete "last_execution_time" d) = inr (fresh r).
Proof.
  unfold save_recipe. destruct (last_execution_time r) eqn:Ht; [done |].
  intros [= <-]. unfold load_recipe.
  rewrite bool_decide_eq_true_2.
  2: { rewrite dom_delete_L, !dom_insert_L, dom_empty_L. unfold INIT_PARAMS.
       simpl. set_solver. }
  unfold Automation_init, kwarg, fresh. destruct r. simpl in *. subst.
  reflexivity.
Qed.

Lemma load_recipe_ok d :
  dom d ⊆ list_to_set INIT_PARAMS ->
  exists r, load_recipe d = inr r /\ fresh r = r.
Proof.
  intros Hsub. unfold load_recipe. rewrite bool_decide_eq_true_2 by done.
  eexists. split; reflexivity.
Qed.

Lemma load_recipe_fails d :
  ~ dom d ⊆ list_to_set INIT_PARAMS -> load_recipe d = inl TypeError.
Proof.
  intros Hsub. unfold load_recipe. by rewrite bool_decide_eq_false_2.
Qed.

Lemma load_all_recipes_spec files m0 :
  match load_all_recipes files m0 with
  | inr m =>
      Forall loadable (json_files files) /\
      recipes m = (recipes m0 ++ omap recipe_of_file (json_files files))%list /\
      threads m = (threads m0
                   ++ replicate (length (json_files files)) Unstarted)%list /\
      length (omap recipe_of_file (json_files files)) = length (json_files files)
  | inl e =>
      ~ Forall loadable (json_files files) /\ (e = ValueError \/ e = TypeError)
  end.
Proof.
  revert m0. induction files as [|[fn c] files IH]; intros m0.
  - simpl. split_and!; [constructor | by rewrite app_nil_r.. | done].
  - cbn [load_all_recipes json_files List.filter fst].
    destruct (ends_with ".json" fn) eqn:Hjson.
    2: { apply IH. }
    fold (json_files files).
    destruct c as [d|].
    2: { split; [| by left]. inversion 1 as [|? ? (d & Hd & _)]. done. }
    destruct (decide (dom d ⊆ list_to_set INIT_PARAMS)) as [Hsub|Hsub].
    + destruct (load_recipe_ok d Hsub) as (r & Hload & Hfresh).
      rewrite Hload. specialize (IH (add_recipe r m0)).
      destruct (load_all_recipes files (add_recipe r m0)) as [e|m].
      * destruct IH as [Hnot He]. split; [| done]. by inversion 1.
      * destruct IH as (Hall & Hr & Ht & Hlen).
        assert (recipe_of_file (fn, Some d) = Some r) as Hfile.
        { unfold recipe_of_file. simpl. by rewrite Hload. }
        split_and!.
        -- constructor; [by exists d | done].
        -- rewrite Hr. simpl. rewrite Hfile. unfold add_recipe. simpl.
           rewrite <- app_assoc. simpl. do 2 f_equal.
           unfold fresh in Hfresh. clear -Hfresh. destruct r.
           unfold set_is_thread_running, set_is_running, set_last_execution_time in *.
           simpl in *. congruence.
        -- rewrite Ht. unfold add_recipe. simpl. by rewrite <- app_assoc.
        -- simpl. rewrite Hfile. simpl. f_equal. exact Hlen.
    + rewrite (load_recipe_fails d Hsub). split; [| by right].
      inversion 1 as [|? ? (d' & Hd' & Hsub')]. simpl in Hd'. by simplify_eq.
Qed.

(** X13: [RecipeManager()] succeeds exactly when every file of the
    directory whose name ends in [.json] is accepted by [json.load] and has
    no key besides the parameters of [__init__]; the other files are not
    looked at.  The manager then holds the recipes of those files in listing
    order, each with a thread not yet started, and [start_all] on it does
    not raise. *)
Theorem manager_init_spec files :
  ((exists m, RecipeManager_init files = inr m) <->
   Forall loadable (json_files files)) /\
  forall m, RecipeManager_init files = inr m ->
    recipes m = omap recipe_of_file (json_files files) /\
    threads m = replicate (length (recipes m)) Unstarted /\
    out_exn (start_all m) = None.
Proof.
  unfold RecipeManager_init.
  pose proof (load_all_recipes_spec files (mk_manager [] [])) as H.
  destruct (load_all_recipes files (mk_manager [] [])) as [e|m].
  - destruct H as [Hnot _]. split; [| done].
    split; [by intros [m ?] | done].
  - destruct H as (Hall & Hr & Ht & Hlen). simpl in Hr, Ht. split.
    + split; [done | by exists m].
    + intros ? [= <-]. split_and!; [done | by rewrite Ht, Hr, Hlen |].
      apply (start_all_ok_idle m).
      * unfold paired. by rewrite Ht, Hr, length_replicate, Hlen.
      * unfold idle_unstarted. rewrite Ht.
        apply Forall2_same_length_lookup_2.
        { by rewrite Hr, length_replicate, Hlen. }
        intros i t r Hti _ _. by apply lookup_replicate in Hti as [-> _].
Qed.

Lemma extra_key_blocks_init files fn d :
  (fn, Some d) ∈ files ->
  ends_with ".json" fn = true ->
  ~ dom d ⊆ list_to_set INIT_PARAMS ->
  exists e, RecipeManager_init files = inl e /\ (e = ValueError \/ e = TypeError).
Proof.
  intros Hin Hjson Hextra. unfold RecipeManager_init.
  pose proof (load_all_recipes_spec files (mk_manager [] [])) as H.
  destruct (load_all_recipes files (mk_manager [] [])) as [e|m].
  - destruct H as [_ He]. by exists e.
  - destruct H as (Hall & _). exfalso.
    rewrite Forall_forall in Hall.
    destruct (Hall (fn, Some d)) as (d' & Hd' & Hsub).
    { unfold json_files. apply list_elem_of_In, filter_In.
      split; [by apply list_elem_of_In | done]. }
    simpl in Hd'. by simplify_eq.
Qed.

(** X14: a directory that lists, under a name ending in [.json], a file
    written by [save_recipe] makes [RecipeManager()] raise: a recipe that
    the program saved prevents the program from starting again. *)
Theorem saved_recipe_blocks_restart files fn r d :
  (fn, Some d) ∈ files ->
  ends_with ".json" fn = true ->
  save_recipe r = inr d ->
  exists e, RecipeManager_init files = inl e /\ (e = ValueError \/ e = TypeError).
Proof.
  intros Hin Hjson Hsave.
  apply (extra_key_blocks_init files fn d Hin Hjson).
  by apply (save_recipe_extra_key r).
Qed.

(** * The interactive surface *)

Section InteractiveFacts.

Variable py_int : string -> option Z.

Lemma select_option_step options line rest :
  select_option py_int options (line :: rest)
  = match py_int line with
    | Some z =>
        if (1 <=? z)%Z && (z <=? Z.of_nat (length options))%Z then
          match options !! Z.to_nat (z - 1) with
          | Some key => Some (key, rest, [])
          | None => None
          end
        else
          match select_option py_int options rest with
          | Some (key, rest', out) => Some (key, rest', complaint py_int line :: out)
          | None => None
          end
    | None =>
        match select_option py_int options rest with
        | Some (key, rest', out) => Some (key, rest', complaint py_int line :: out)
        | None => None
        end
    end.
Proof. unfold complaint. simpl. by destruct (py_int line). Qed.

Lemma in_range_lookup (options : list string) z :
  (1 <= z <= Z.of_nat (length options))%Z ->
  is_Some (options !! Z.to_nat (z - 1)).
Proof. intros Hz. apply lookup_lt_is_Some_2. lia. Qed.

(** X15: [select_option] skips every line that is not a number from 1 to
    the number of options, printing one complaint per skipped line, and
    returns the key at the position given by the first line that is, with
    the lines after it left unread; it has no result exactly when no line
    of the input is such a number. *)
Theorem select_option_spec options inputs :
  (forall key rest out,
     select_option py_int options inputs = Some (key, rest, out) <->
     exists bad line z,
       inputs = (bad ++ line :: rest)%list /\
       Forall (fun l => ~ valid_choice py_int options l) bad /\
       py_int line = Some z /\ (1 <= z <= Z.of_nat (length options))%Z /\
       options !! Z.to_nat (z - 1) = Some key /\
       out = complaint py_int <$> bad) /\
  (select_option py_int options inputs = None <->
   Forall (fun l => ~ valid_choice py_int options l) inputs).
Proof.
  induction inputs as [|line inputs [IHsome IHnone]].
  { split.
    - intros key rest out. split; [done |].
      intros (bad & l & z & Heq & _). by destruct bad.
    - split; [constructor | done]. }
  rewrite select_option_step.
  destruct (py_int line) as [z|] eqn:Hint.
  - destruct ((1 <=? z)%Z && (z <=? Z.of_nat (length options))%Z) eqn:Hrange.
    + assert (1 <= z <= Z.of_nat (length options))%Z as Hz by lia.
      destruct (in_range_lookup options z Hz) as [key0 Hkey0]. rewrite Hkey0.
      split.
      * intros key rest out. split.
        -- intros [= <- <- <-]. by exists [], line, z.
        -- intros (bad & l & z' & Heq & Hbad & Hl & Hz' & Hkey & ->).
           destruct bad as [|b bad]; simplify_eq/=; [done |].
           inversion Hbad as [|? ? Hb _]; subst. destruct Hb. by exists z.
      * split; [done |]. inversion 1 as [|? ? Hb _]; subst.
        destruct Hb. by exists z.
    + assert (~ valid_choice py_int options line) as Hinvalid.
      { intros (z' & Hz' & Hr). simplify_eq. lia. }
      split.
      * intros key rest out. split.
        -- destruct (select_option py_int options inputs) as [[[k r] o]|] eqn:Hsel;
             [| done].
           intros [= <- <- <-].
           destruct (proj1 (IHsome k r o) eq_refl)
             as (bad & l & z' & -> & Hbad & Hl & Hz' & Hkey & ->).
           exists (line :: bad), l, z'. split_and!; try done; try lia.
           by constructor.
        -- intros (bad & l & z' & Heq & Hbad & Hl & Hz' & Hkey & ->).
           destruct bad as [|b bad]; simplify_eq/=; [lia |].
           inversion Hbad; subst.
           rewrite (proj2 (IHsome key rest (complaint py_int <$> bad))); [done |].
           by exists bad, l, z'.
      * destruct (select_option py_int options inputs) as [[[k r] o]|] eqn:Hsel.
        -- split; [done |]. inversion 1 as [|? ? _ Hrest]; subst.
           by apply IHnone in Hrest.
        -- split; [| done]. intros _. constructor; [done | by apply IHnone].
  - assert (~ valid_choice py_int options line) as Hinvalid.
    { intros (z' & Hz' & Hr). by simplify_eq. }
    split.
    * intros key rest out. split.
      -- destruct (select_option py_int options inputs) as [[[k r] o]|] eqn:Hsel;
           [| done].
         intros [= <- <- <-].
         destruct (proj1 (IHsome k r o) eq_refl)
           as (bad & l & z' & -> & Hbad & Hl & Hz' & Hkey & ->).
         exists (line :: bad), l, z'. split_and!; try done; try lia.
         by constructor.
      -- intros (bad & l & z' & Heq & Hbad & Hl & Hz' & Hkey & ->).
         destruct bad as [|b bad]; simplify_eq/=.
         inversion Hbad; subst.
         rewrite (proj2 (IHsome key rest (complaint py_int <$> bad))); [done |].
         by exists bad, l, z'.
    * destruct (select_option py_int options inputs) as [[[k r] o]|] eqn:Hsel.
      -- split; [done |]. inversion 1 as [|? ? _ Hrest]; subst.
         by apply IHnone in Hrest.
      -- split; [| done]. intros _. constructor; [done | by apply IHnone].
Qed.

Lemma select_option_key options inputs key rest out :
  select_option py_int options inputs = Some (key, rest, out) ->
  key ∈ options /\ exists used, inputs = (used ++ rest)%list.
Proof.
  revert out. induction inputs as [|line inputs IH]; intros out; [done |].
  assert (forall o, select_option py_int options inputs = Some (key, rest, o) ->
            key ∈ options /\ exists used, line :: inputs = (used ++ rest)%list)
    as Hskip.
  { intros o Ho. destruct (IH o Ho) as [Hkey [used ->]].
    split; [done | by exists (line :: used)]. }
  rewrite select_option_step.
  destruct (py_int line) as [z|];
    [destruct ((1 <=? z)%Z && (z <=? Z.of_nat (length options))%Z) |].
  - destruct (options !! Z.to_nat (z - 1)) as [k|] eqn:Hk; [| done].
    intros [= <- <- <-].
    split; [by eapply list_elem_of_lookup_2 | by exists [line]].
  - destruct (select_option py_int options inputs) as [[[k r] o]|]; [| done].
    intros [= <- <- <-]. by apply (Hskip o).
  - destruct (select_option py_int options inputs) as [[[k r] o]|]; [| done].
    intros [= <- <- <-]. by apply (Hskip o).
Qed.

Lemma input_some inputs line rest :
  input inputs = Some (line, rest) -> inputs = line :: rest.
Proof. destruct inputs; [done |]. by intros [= -> ->]. Qed.

Lemma create_recipe_inv inputs r rest out :
  create_recipe py_int inputs = Some (r, rest, out) ->
  exists t url bk tn ak (ft : option (string * string)) nm used,
    r = {| trigger := Some t; action := Some "send_webhook";
           webhook_url := Some url; base_key := Some bk;
           table_name := Some tn; api_key := Some ak;
           field_name := fst <$> ft; text_to_find := snd <$> ft;
           name := Some nm; last_execution_time := None;
           is_running := false; is_thread_running := false |} /\
    t ∈ TRIGGERS /\
    (is_Some ft <-> t = "find_record") /\
    inputs = (used ++ rest)%list.
Proof.
  unfold create_recipe.
  destruct (select_option py_int TRIGGERS inputs) as [[[t in1] o1]|] eqn:Ht;
    [| done].
  apply select_option_key in Ht as [Htin [u1 ->]]. cbn [mbind option_bind].
  destruct (select_option py_int ACTIONS in1) as [[[a in2] o2]|] eqn:Ha;
    [| done].
  apply select_option_key in Ha as [Hain [u2 ->]]. cbn [mbind option_bind].
  assert (a = "send_webhook") as ->.
  { unfold ACTIONS in Hain. by apply list_elem_of_singleton in Hain. }
  cbn [String.eqb Ascii.eqb Bool.eqb andb].
  destruct (input in2) as [[url in3]|] eqn:H3; [| done].
  apply input_some in H3 as ->. cbn [mbind option_bind].
  destruct (input in3) as [[bk in4]|] eqn:H4; [| done].
  apply input_some in H4 as ->. cbn [mbind option_bind].
  destruct (input in4) as [[tn in5]|] eqn:H5; [| done].
  apply input_some in H5 as ->. cbn [mbind option_bind].
  destruct (input in5) as [[ak in6]|] eqn:H6; [| done].
  apply input_some in H6 as ->. cbn [mbind option_bind].
  destruct (String.eqb t "find_record") eqn:Hfind.
  - apply String.eqb_eq in Hfind as ->.
    destruct (input in6) as [[fnm in7]|] eqn:H7; [| done].
    apply input_some in H7 as ->. cbn [mbind option_bind].
    destruct (input in7) as [[ttf in8]|] eqn:H8; [| done].
    apply input_some in H8 as ->. cbn [mbind option_bind].
    destruct (input in8) as [[nm in9]|] eqn:H9; [| done].
    apply input_some in H9 as ->. cbn [mbind option_bind].
    unfold Automation_init. intros [= <- <- <-].
    exists "find_record", url, bk, tn, ak, (Some (fnm, ttf)), nm,
      (u1 ++ u2 ++ [url; bk; tn; ak; fnm; ttf; nm])%list.
    split_and!; try done; try (by eexists); by rewrite <- !app_assoc.
  - apply String.eqb_neq in Hfind. cbn [mbind option_bind].
    destruct (input in6) as [[nm in9]|] eqn:H9; [| done].
    apply input_some in H9 as ->. cbn [mbind option_bind].
    unfold Automation_init. intros [= <- <- <-].
    exists t, url, bk, tn, ak, None, nm, (u1 ++ u2 ++ [url; bk; tn; ak; nm])%list.
    split_and!; try done; try (by rewrite <- !app_assoc).
Qed.

(** X16: every recipe that [create_recipe] returns has a trigger among
    [TRIGGERS], the action [send_webhook], a webhook URL, the three
    Airtable settings and a name; it has a field name and a text to find
    exactly when its trigger is [find_record]; it has no execution time
    yet; and the lines left unread are a suffix of the input. *)
Theorem create_recipe_spec inputs r rest out :
  create_recipe py_int inputs = Some (r, rest, out) ->
  (exists t, trigger r = Some t /\ t ∈ TRIGGERS) /\
  action r = Some "send_webhook" /\
  is_Some (webhook_url r) /\
  is_Some (base_key r) /\ is_Some (table_name r) /\ is_Some (api_key r) /\
  is_Some (name r) /\
  (is_Some (field_name r) <-> trigger r = Some "find_record") /\
  (is_Some (text_to_find r) <-> trigger r = Some "find_record") /\
  last_execution_time r = None /\
  exists used, inputs = (used ++ rest)%list.
Proof.
  intros H.
  destruct (create_recipe_inv inputs r rest out H)
    as (t & url & bk & tn & ak & ft & nm & used & -> & Ht & Hft & Hused).
  cbn. split_and!; try done; try by eexists.
  - rewrite fmap_is_Some, Hft. split; [by intros -> | by intros [= ->]].
  - rewrite fmap_is_Some, Hft. split; [by intros -> | by intros [= ->]].
Qed.


End InteractiveFacts.

(** ** Instances of the further properties *)

(** X2 at [r1], fetched in a first cycle and again in a second. *)
Lemma seen_record_never_dispatched_witness :
  run_status (execute_recipe fromisoformat_basic updated_recipe t_april_15
                [cycle_of [rec_r1_dated]]) = Polling /\
  "r1" ∈ fetched_ids [cycle_of [rec_r1_dated]] /\
  exists later,
    dispatches (run_trace (execute_recipe fromisoformat_basic updated_recipe t_april_15
                             ([cycle_of [rec_r1_dated]] ++
                              [cycle_of [rec_r1_dated; rec_r2_dated]])))
    = (dispatches (run_trace (execute_recipe fromisoformat_basic updated_recipe
                                t_april_15 [cycle_of [rec_r1_dated]]))
       ++ later)%list /\
    "r1" ∉ later.
Proof.
  assert ("r1" ∈ fetched_ids [cycle_of [rec_r1_dated]]) as H
    by apply list_elem_of_here.
  split_and!; [reflexivity | exact H |].
  apply (seen_record_never_dispatched fromisoformat_basic updated_recipe t_april_15
           [cycle_of [rec_r1_dated]] [cycle_of [rec_r1_dated; rec_r2_dated]] "r1"
           eq_refl H).
Defined.

(** X3 at a second cycle whose snapshot holds [r3] between [r2] and [r1]. *)
Lemma malformed_timestamp_ends_run_witness :
  run_status (execute_recipe fromisoformat_basic updated_recipe t_april_15
                [cycle_of [rec_r1_dated]]) = Polling /\
  run_status (execute_recipe fromisoformat_basic updated_recipe t_april_15
                ([cycle_of [rec_r1_dated]] ++
                 cycle_of [rec_r2_dated; rec_r3_malformed; rec_r1_dated]
                 :: [cycle_of [rec_r2_dated]])) = Raised ValueError /\
  run_cycles (execute_recipe fromisoformat_basic updated_recipe t_april_15
                ([cycle_of [rec_r1_dated]] ++
                 cycle_of [rec_r2_dated; rec_r3_malformed; rec_r1_dated]
                 :: [cycle_of [rec_r2_dated]])) = 1%nat.
Proof.
  split; [reflexivity |].
  assert (record_id rec_r3_malformed
          ∉ processed_records
              (run_world (execute_recipe fromisoformat_basic updated_recipe
                            t_april_15 [cycle_of [rec_r1_dated]]))) as Hunseen.
  { apply (bool_decide_eq_true_1 _). vm_compute. reflexivity. }
  assert (record_id rec_r3_malformed ∉ map record_id [rec_r2_dated]) as Hfresh.
  { apply (bool_decide_eq_true_1 _). vm_compute. reflexivity. }
  assert (forall s, VStr "yesterday" = VStr s -> fromisoformat_basic s = None)
    as Hbad.
  { intros s [= <-]. reflexivity. }
  destruct (malformed_timestamp_ends_run fromisoformat_basic updated_recipe
              t_april_15 [cycle_of [rec_r1_dated]]
              (cycle_of [rec_r2_dated; rec_r3_malformed; rec_r1_dated])
              [cycle_of [rec_r2_dated]]
              [rec_r2_dated] rec_r3_malformed [rec_r1_dated] (VStr "yesterday")
              eq_refl eq_refl eq_refl Hunseen Hfresh eq_refl eq_refl Hbad)
    as (Hst & Hcycles & _).
  split; [exact Hst | exact Hcycles].
Defined.

(** X4 at one cycle answered with 200 against the same cycle answered
    with 500. *)
Lemma status_code_ignored_witness :
  Forall2 same_but_status [cycle_of [rec_r1_dated]] [cycle_rejected [rec_r1_dated]] /\
  run_world (execute_recipe fromisoformat_basic updated_recipe t_april_15
               [cycle_of [rec_r1_dated]])
  = run_world (execute_recipe fromisoformat_basic updated_recipe t_april_15
                 [cycle_rejected [rec_r1_dated]]) /\
  dispatches (run_trace (execute_recipe fromisoformat_basic updated_recipe t_april_15
                           [cycle_of [rec_r1_dated]]))
  = dispatches (run_trace (execute_recipe fromisoformat_basic updated_recipe
                             t_april_15 [cycle_rejected [rec_r1_dated]])).
Proof.
  assert (Forall2 same_but_status [cycle_of [rec_r1_dated]]
                                  [cycle_rejected [rec_r1_dated]]) as H.
  { constructor; [| constructor]. split_and!; [reflexivity | reflexivity |].
    intros r. split; discriminate. }
  split; [exact H |].
  destruct (status_code_ignored fromisoformat_basic updated_recipe t_april_15
              [cycle_of [rec_r1_dated]] [cycle_rejected [rec_r1_dated]] H)
    as (_ & _ & Hw & _ & Hd).
  split; [exact Hw | exact Hd].
Defined.

(** X5 at a manager with one recipe marked running and one idle. *)
Lemma start_all_raises_iff_witness :
  paired half_started /\
  (out_exn (start_all half_started) = None <-> idle_unstarted half_started).
Proof.
  split; [reflexivity |].
  apply (start_all_raises_iff half_started eq_refl).
Defined.

(** X6 at the same manager. *)
Lemma start_all_twice_witness :
  idle_unstarted half_started /\
  start_all (out_manager (start_all half_started))
  = mk_outcome (out_manager (start_all half_started)) [AllAlreadyRunning] None.
Proof.
  assert (idle_unstarted half_started) as H.
  { unfold idle_unstarted. simpl. repeat constructor. discriminate. }
  split; [exact H |].
  apply (start_all_twice half_started H).
Defined.

(** X8 at a session in which a runner dies of a failed fetch and a second
    recipe is created afterwards. *)
Lemma start_all_never_raises_witness :
  Forall own_step [Create urgent_recipe; StartAll; ThreadEnter 0 t_april_15;
                   ThreadCycle 0 cycle_fetch_fails; Create updated_recipe] /\
  out_exn (start_all (apply_ops fromisoformat_basic (mk_manager [] [])
             [Create urgent_recipe; StartAll; ThreadEnter 0 t_april_15;
              ThreadCycle 0 cycle_fetch_fails; Create updated_recipe])) = None.
Proof.
  assert (Forall own_step [Create urgent_recipe; StartAll; ThreadEnter 0 t_april_15;
                           ThreadCycle 0 cycle_fetch_fails; Create updated_recipe])
    as H.
  { repeat constructor. }
  split; [exact H |].
  apply (start_all_never_raises fromisoformat_basic _ H).
Defined.

(** X9 at a runner whose fetch fails. *)
Lemma dead_runner_stays_running_witness :
  raised (loop_body fromisoformat_basic cycle_fetch_fails
            (mk_world (start_recipe urgent_recipe) t_april_15 ∅)) = Some FetchError /\
  exists r',
    threads (thread_cycle fromisoformat_basic 0 cycle_fetch_fails
               (mk_manager [start_recipe urgent_recipe] [Looping t_april_15 ∅]))
      !! 0%nat = Some Finished /\
    recipes (thread_cycle fromisoformat_basic 0 cycle_fetch_fails
               (mk_manager [start_recipe urgent_recipe] [Looping t_april_15 ∅]))
      !! 0%nat = Some r' /\
    status_label r' = "running".
Proof.
  split; [reflexivity |].
  destruct (dead_runner_stays_running fromisoformat_basic
              (mk_manager [start_recipe urgent_recipe] [Looping t_april_15 ∅])
              0%nat (start_recipe urgent_recipe) t_april_15 ∅ cycle_fetch_fails
              FetchError eq_refl eq_refl eq_refl eq_refl eq_refl eq_refl)
    as (r' & Ht & Hr & _ & Hlabel & _).
  exists r'. split_and!; [exact Ht | exact Hr | exact Hlabel].
Defined.

(** X10 at a session with one recipe started and one created afterwards. *)
Lemma status_after_start_witness :
  out_exn (start_all (apply_ops fromisoformat_basic (mk_manager [] [])
             [Create urgent_recipe; StartAll; ThreadEnter 0 t_april_15;
              Create updated_recipe])) = None /\
  log_status (out_manager (start_all (apply_ops fromisoformat_basic (mk_manager [] [])
                [Create urgent_recipe; StartAll; ThreadEnter 0 t_april_15;
                 Create updated_recipe])))
  = [StatusLine (Some "urgent") (Some "https://hooks.example.org/t") "running";
     StatusLine (Some "updates") (Some "https://hooks.example.org/u") "running"].
Proof.
  split; [reflexivity |].
  rewrite (status_after_start fromisoformat_basic
             [Create urgent_recipe; StartAll; ThreadEnter 0 t_april_15;
              Create updated_recipe] eq_refl).
  reflexivity.
Defined.

(** X11 at the file written for [urgent_recipe]. *)
Lemma saved_recipe_does_not_load_witness :
  save_recipe urgent_recipe = inr urgent_saved /\
  load_recipe urgent_saved = inl TypeError.
Proof.
  split; [reflexivity |].
  apply (saved_recipe_does_not_load urgent_recipe urgent_saved eq_refl).
Defined.

(** X12 at the same file. *)
Lemma saved_recipe_loads_without_time_witness :
  save_recipe urgent_recipe = inr urgent_saved /\
  load_recipe (delete "last_execution_time" urgent_saved) = inr urgent_recipe.
Proof.
  split; [reflexivity |].
  apply (saved_recipe_loads_without_time urgent_recipe urgent_saved eq_refl).
Defined.

(** X14 at a directory with a text file and the file written for
    [urgent_recipe]. *)
Lemma saved_recipe_blocks_restart_witness :
  ("urgent.json", Some urgent_saved)
    ∈ [("notes.txt", None); ("urgent.json", Some urgent_saved)] /\
  ends_with ".json" "urgent.json" = true /\
  save_recipe urgent_recipe = inr urgent_saved /\
  exists e, RecipeManager_init [("notes.txt", None); ("urgent.json", Some urgent_saved)]
            = inl e /\ (e = ValueError \/ e = TypeError).
Proof.
  assert (("urgent.json", Some urgent_saved)
            ∈ [("notes.txt", None); ("urgent.json", Some urgent_saved)]) as H
    by apply list_elem_of_further, list_elem_of_here.
  split_and!; [exact H | reflexivity | reflexivity |].
  apply (saved_recipe_blocks_restart
           [("notes.txt", None); ("urgent.json", Some urgent_saved)] "urgent.json"
           urgent_recipe urgent_saved H eq_refl eq_refl).
Defined.

(** X16 at the lines of [urgent_lines]. *)
Lemma create_recipe_spec_witness :
  create_recipe int_basic urgent_lines
  = Some (urgent_recipe, [], [NotANumber; InvalidChoice]) /\
  action urgent_recipe = Some "send_webhook" /\
  (is_Some (field_name urgent_recipe) <-> trigger urgent_recipe = Some "find_record").
Proof.
  split; [reflexivity |].
  destruct (create_recipe_spec int_basic urgent_lines urgent_recipe []
              [NotANumber; InvalidChoice] eq_refl)
    as (_ & Ha & _ & _ & _ & _ & _ & Hf & _).
  split; [exact Ha | exact Hf].
Defined.


(** X18 at [r1], whose [Status] holds the text [URGENT]. *)
Lemma find_record_fires_witness :
  trigger (recipe (enter urgent_recipe t_april_15)) = Some "find_record" /\
  (record_id rec_r1_dated ∉ processed_records (enter urgent_recipe t_april_15)) /\
  Post (webhook_url urgent_recipe) rec_r1_dated
    ∈ events (process_record fromisoformat_basic post_ok rec_r1_dated
                (enter urgent_recipe t_april_15)).
Proof.
  assert (record_id rec_r1_dated ∉ processed_records (enter urgent_recipe t_april_15))
    as H by apply not_elem_of_empty.
  split_and!; [reflexivity | exact H |].
  apply (find_record_fires fromisoformat_basic post_ok rec_r1_dated
           (enter urgent_recipe t_april_15) eq_refl H).
  exists "2024-05-01T12:00:00+02:00", 65063736000%Z, (Some 120%Z),
         "Status", "URGENT review", "URGENT".
  split_and!; [reflexivity | discriminate | reflexivity | reflexivity
               | reflexivity | reflexivity | reflexivity].
Defined.
